(** * Quick API update handler: policy validation and update-expression
      compilation

    A shallow embedding of the update compiler of the repository
    ([quickApiUpdateHandler], [validateUpdateFields],
    [updateExpressionBuilder], [validateConfig], [includeFieldInAction],
    [clearRequestFieldFromAllActions]) together with the properties its
    specification states about it.

    Naming.  The specification calls the four buckets of a request
    assign / remove / increment / append.  The code spells them
    ['set'] / ['remove'] / ['add'] / ['append']; the embedding keeps the
    spelling of the code, so "assign" is [SET] and "increment" is [ADD]. *)

From stdpp Require Import gmap strings list fin_maps.
From Stdlib Require Import ZArith Ascii DecimalString.

Open Scope Z_scope.
#[local] Set Warnings "-register-all".
Open Scope string_scope.
Open Scope list_scope.

(* ===================================================================== *)
(** ** JavaScript data *)
(* ===================================================================== *)

(** Values as [JSON.parse] produces them, plus [undefined].  Numbers are
    the integer-valued ones; an object is the list of its own properties
    in the order [Object.keys] enumerates them. *)
Inductive JsValue : Type :=
| JUndefined
| JNull
| JBool (b : bool)
| JNum (n : Z)
| JStr (s : string)
| JArr (elems : list JsValue)
| JObj (props : list (string * JsValue)).

Abbreviation JsObject := (list (string * JsValue)).

(** [Object.keys(o)] *)
Definition Object_keys (o : JsObject) : list string := map fst o.

(** [o[k]] for an own property, [undefined] when there is none. *)
Fixpoint getProp (o : JsObject) (k : string) : JsValue :=
  match o with
  | [] => JUndefined
  | (k', v) :: rest => if decide (k' = k) then v else getProp rest k
  end.

(** [o[k] = v]: an existing property keeps its place, a new one goes
    last (as it does for every name that is not an array index; the
    names the handler adds are [lastUpdated] and [version]). *)
Fixpoint setProp (o : JsObject) (k : string) (v : JsValue) : JsObject :=
  match o with
  | [] => [(k, v)]
  | (k', v') :: rest =>
      if decide (k' = k) then (k', v) :: rest else (k', v') :: setProp rest k v
  end.

(** [delete o[k]] *)
Definition deleteProp (o : JsObject) (k : string) : JsObject :=
  filter (fun kv => fst kv ≠ k) o.

(** Truthiness, as [!x] and [if (x)] test it. *)
Definition truthy (v : JsValue) : bool :=
  match v with
  | JUndefined | JNull => false
  | JBool b => b
  | JNum n => negb (Z.eqb n 0)
  | JStr s => negb (String.eqb s "")
  | JArr _ | JObj _ => true
  end.

(** [Array.isArray(x)] *)
Definition Array_isArray (v : JsValue) : bool :=
  match v with JArr _ => true | _ => false end.

(** [xs.includes(x)] on an array of strings. *)
Definition includes (xs : list string) (x : string) : bool :=
  bool_decide (x ∈ xs).

(** Options object of [marshall]. *)
Record MarshallOptions : Type := {
  convertTopLevelContainer : bool;
  removeUndefinedValues : bool
}.

Definition noOptions : MarshallOptions :=
  {| convertTopLevelContainer := false; removeUndefinedValues := false |}.

(** What the module takes from outside the repository: [marshall] of the
    store client library ([/opt/dynamodb]) and the conversion of a string
    to a number of the language ([None] is [NaN]). *)
Class Runtime : Type := {
  marshall : MarshallOptions -> JsValue -> JsValue;
  StringToNumber : string -> option Z
}.

Section Coercions.
Context `{Runtime}.

(** [Number(x)], the coercion [isNaN] and [>] apply; [None] is [NaN].
    An array is converted through its string: the empty array and
    [[undefined]], [[null]] give the empty string, hence [0]; a
    one-element array gives what its element's string gives; a longer
    one gives a string with a comma, hence [NaN]. *)
Fixpoint ToNumber (v : JsValue) : option Z :=
  match v with
  | JUndefined => None
  | JNull => Some 0
  | JBool b => Some (if b then 1 else 0)
  | JNum n => Some n
  | JStr s => StringToNumber s
  | JArr [] => Some 0
  | JArr [x] =>
      match x with
      | JUndefined | JNull => Some 0
      | JBool _ | JObj _ => None
      | JNum _ | JStr _ | JArr _ => ToNumber x
      end
  | JArr (_ :: _ :: _) => None
  | JObj _ => None
  end.

(** [isNaN(x)] *)
Definition isNaN (v : JsValue) : bool :=
  match ToNumber v with None => true | Some _ => false end.

(** [x > 0]: false when [x] converts to [NaN]. *)
Definition gtZero (v : JsValue) : bool :=
  match ToNumber v with None => false | Some n => Z.ltb 0 n end.
End Coercions.

(* ===================================================================== *)
(** ** Errors *)
(* ===================================================================== *)

(** What a call can throw: an [Exception] of [/opt/base] with its
    message, [code] and [error] detail, or a [TypeError] of the
    language. *)
Inductive Thrown : Type :=
| Exception (message : string) (code : Z) (error : string)
| TypeError (message : string).

Inductive Result (A : Type) : Type :=
| Ok (a : A)
| Throw (e : Thrown).
Arguments Ok {A} a.
Arguments Throw {A} e.

Definition bind {A B : Type} (r : Result A) (k : A -> Result B) : Result B :=
  match r with
  | Ok a => k a
  | Throw e => Throw e
  end.

Notation "'do' x <- r ; k" := (bind r (fun x => k))
  (at level 10, x name, r at level 100, k at level 200).
Notation "'run' r ; k" := (bind r (fun _ => k))
  (at level 10, r at level 100, k at level 200).

(** [for (const x of xs) { body }] where the body may throw. *)
Fixpoint forOf {A : Type} (body : A -> Result unit) (xs : list A) : Result unit :=
  match xs with
  | [] => Ok tt
  | x :: rest => run body x; forOf body rest
  end.

(** [if (c) throw e] *)
Definition throwIf (c : bool) (e : Thrown) : Result unit :=
  if c then Throw e else Ok tt.

(** The exceptions of the module, by the names the specification gives
    them. *)
Definition MalformedConfiguration : Thrown :=
  Exception "Malformed configuration" 400
            "Configuration must contain `actionRules` object".

Definition MalformedKey (key : string) : Thrown :=
  Exception ("Malformed item key: " +:+ key) 400
            "Item key must be of the form: {pk: <partition-key>, sk: <sort-key>}".

Definition ActionNotPermitted (action : string) : Thrown :=
  Exception "Malformed request: Invalid action" 400
            ("Action '" +:+ action +:+ "' is not permitted here.").

Definition FieldNotWhitelisted (field action : string) : Thrown :=
  Exception ("Field '" +:+ field +:+ "' is not whitelisted for this action ("
               +:+ action +:+ ").") 400
            ("Malformed request: Updating field '" +:+ field +:+ "' is not permitted.").

Definition FieldBlacklisted (field action : string) : Thrown :=
  Exception ("Field '" +:+ field +:+ "' is blacklisted for this action ("
               +:+ action +:+ ").") 400
            ("Malformed request: Updating field '" +:+ field +:+ "' is not permitted.").

Definition MissingMandatoryField (field action : string) : Thrown :=
  Exception "Malformed request: Missing mandatory fields" 400
            ("Field '" +:+ field +:+ "' was expected in action " +:+ action +:+ ".").

Definition DuplicateField (field : string) : Thrown :=
  Exception "Malformed request: Duplicate fields detected" 400
            ("Field '" +:+ field +:+ "' is present in multiple expressions").

Definition InvalidIncrementType (field : string) : Thrown :=
  Exception "Malformed request: Invalid field type in 'add' action list" 400
            ("Field '" +:+ field +:+ "' must be a number").

Definition InvalidAppendType (field : string) : Thrown :=
  Exception "Malformed request: Invalid field type in 'append' action list" 400
            ("Field '" +:+ field +:+ "' must be an array").

(* ===================================================================== *)
(** ** Requests and policy *)
(* ===================================================================== *)

(** The four action names, in the order of the keys of [allFields]. *)
Inductive Action : Type := SET | REMOVE | ADD | APPEND.

Definition actionName (a : Action) : string :=
  match a with
  | SET => "set"
  | REMOVE => "remove"
  | ADD => "add"
  | APPEND => "append"
  end.

#[global] Instance Action_eq_dec : EqDecision Action.
Proof. solve_decision. Defined.

(** The actions whose bucket is a mapping from field to value: the ones
    [clearRequestFieldFromAllActions] loops over and
    [includeFieldInAction] is called with. *)
Inductive MapAction : Type := MSET | MADD | MAPPEND.

#[global] Instance MapAction_eq_dec : EqDecision MapAction.
Proof. solve_decision. Defined.

Definition toAction (a : MapAction) : Action :=
  match a with
  | MSET => SET
  | MADD => ADD
  | MAPPEND => APPEND
  end.

(** One item of [updateList].  A bucket that is absent is [None]; [key],
    [set], [add] and [append] are objects when present and [remove] is an
    array of field names. *)
Module Req.
Record t : Type := {
  key : option JsObject;
  set : option JsObject;
  remove : option (list string);
  add : option JsObject;
  append : option JsObject
}.
End Req.

(** [allFields]: the field names of each action. *)
Module Fields.
Record t : Type := {
  set : list string;
  remove : list string;
  add : list string;
  append : list string
}.

(** [allFields[action]] *)
Definition get (allFields : t) (action : Action) : list string :=
  match action with
  | SET => set allFields
  | REMOVE => remove allFields
  | ADD => add allFields
  | APPEND => append allFields
  end.
End Fields.

(** One entry of [config.actionRules]. *)
Module Rule.
Record t : Type := {
  allowAll : option bool;
  whitelist : option (list string);
  blacklist : option (list string);
  mandatoryFields : option (list string)
}.
End Rule.

(** The configuration: [actionRules] maps action names to rules. *)
Record Config : Type := {
  actionRules : option (gmap string Rule.t);
  autoTimestamp : bool;
  autoVersion : bool;
  failOnError : bool
}.

(** [request[action]] for a mapping action. *)
Definition mapping (request : Req.t) (action : MapAction) : option JsObject :=
  match action with
  | MSET => Req.set request
  | MADD => Req.add request
  | MAPPEND => Req.append request
  end.

(** [request[action] = o] for a mapping action. *)
Definition withMapping (request : Req.t) (action : MapAction) (o : JsObject) : Req.t :=
  match action with
  | MSET =>
      {| Req.key := Req.key request; Req.set := Some o;
         Req.remove := Req.remove request; Req.add := Req.add request;
         Req.append := Req.append request |}
  | MADD =>
      {| Req.key := Req.key request; Req.set := Req.set request;
         Req.remove := Req.remove request; Req.add := Some o;
         Req.append := Req.append request |}
  | MAPPEND =>
      {| Req.key := Req.key request; Req.set := Req.set request;
         Req.remove := Req.remove request; Req.add := Req.add request;
         Req.append := Some o |}
  end.

(** [request['remove'] = fs] *)
Definition withRemove (request : Req.t) (fs : list string) : Req.t :=
  {| Req.key := Req.key request; Req.set := Req.set request;
     Req.remove := Some fs; Req.add := Req.add request;
     Req.append := Req.append request |}.

(** Truthiness of [item?.[action]]: a bucket that is present is an object
    or an array, hence truthy even when empty. *)
Definition hasAction (item : Req.t) (action : Action) : bool :=
  match action with
  | SET => bool_decide (is_Some (Req.set item))
  | REMOVE => bool_decide (is_Some (Req.remove item))
  | ADD => bool_decide (is_Some (Req.add item))
  | APPEND => bool_decide (is_Some (Req.append item))
  end.

(** [config?.actionRules?.[action]] *)
Definition rulesFor (config : Config) (action : string) : option Rule.t :=
  match actionRules config with
  | Some rules => rules !! action
  | None => None
  end.

(* ===================================================================== *)
(** ** Validation *)
(* ===================================================================== *)

Section Validation.
Context `{Runtime}.

(** [item?.[action]?.length > 0].  The [remove] bucket is an array and
    its [length] is its number of elements.  The other buckets are
    objects: their [length] is the property of that name, [undefined]
    when the request has no field called "length". *)
Definition lengthGtZero (item : Req.t) (action : Action) : bool :=
  match action with
  | SET => from_option (fun o => gtZero (getProp o "length")) false (Req.set item)
  | REMOVE => from_option (fun fs => bool_decide (0 < length fs)%nat) false (Req.remove item)
  | ADD => from_option (fun o => gtZero (getProp o "length")) false (Req.add item)
  | APPEND => from_option (fun o => gtZero (getProp o "length")) false (Req.append item)
  end.

(** [bucket[field]] where [bucket] is [item.set], [item.add] or [item.append]:
    reading a property of [undefined] is a [TypeError]. *)
Definition readField (bucket : option JsObject) (field : string) : Result JsValue :=
  match bucket with
  | Some o => Ok (getProp o field)
  | None =>
      Throw (TypeError ("Cannot read properties of undefined (reading '"
                          +:+ field +:+ "')"))
  end.

(** The body of the loop [for (const action of actions)] of
    [validateUpdateFields]; [Ok tt] is falling through or [continue]. *)
Definition checkAction (allFields : Fields.t) (item : Req.t) (config : Config)
    (action : Action) : Result unit :=
  if negb (hasAction item action) then Ok tt
  else
    let actionRules := rulesFor config (actionName action) in
    match actionRules with
    | None =>
        throwIf (lengthGtZero item action) (ActionNotPermitted (actionName action))
    | Some rules =>
        if negb (bool_decide (Rule.allowAll rules = Some true)) then
          throwIf (lengthGtZero item action) (ActionNotPermitted (actionName action))
        else if bool_decide (Rule.allowAll rules = Some true) then Ok tt
        else
          run (match Rule.whitelist rules with
               | Some whitelist =>
                   forOf (fun field =>
                            throwIf (negb (includes whitelist field))
                                    (FieldNotWhitelisted field (actionName action)))
                         (Fields.get allFields action)
               | None => Ok tt
               end);
          run (match Rule.blacklist rules with
               | Some blacklist =>
                   forOf (fun field =>
                            throwIf (includes blacklist field)
                                    (FieldBlacklisted field (actionName action)))
                         (Fields.get allFields action)
               | None => Ok tt
               end);
          match Rule.mandatoryFields rules with
          | Some _ =>
              (* [actionRules[action]] is [undefined]: a rule has no
                 property named after the action *)
              Throw (TypeError
                "Cannot read properties of undefined (reading 'mandatoryFields')")
          | None => Ok tt
          end
    end.

(** The loop over [fieldsList] with the set [dupeCheck]. *)
Fixpoint dupeLoop (dupeCheck : gset string) (fieldsList : list string) : Result unit :=
  match fieldsList with
  | [] => Ok tt
  | field :: rest =>
      if bool_decide (field ∈ dupeCheck) then Throw (DuplicateField field)
      else dupeLoop ({[field]} ∪ dupeCheck) rest
  end.

(** The check of the values of ['add']. *)
Definition checkAddTypes (allFields : Fields.t) (item : Req.t) : Result unit :=
  if bool_decide (0 < length (Fields.add allFields))%nat then
    forOf (fun field =>
             do v <- readField (Req.add item) field;
             throwIf (isNaN v) (InvalidIncrementType field))
          (Fields.add allFields)
  else Ok tt.

(** The check of the values of ['append']. *)
Definition checkAppendTypes (allFields : Fields.t) (item : Req.t) : Result unit :=
  if bool_decide (0 < length (Fields.append allFields))%nat then
    forOf (fun field =>
             do v <- readField (Req.append item) field;
             throwIf (negb (Array_isArray v)) (InvalidAppendType field))
          (Fields.append allFields)
  else Ok tt.

Definition actions : list Action := [SET; REMOVE; ADD; APPEND].

(** [actions.reduce((acc, val) => acc.concat(allFields[val]), [])] *)
Definition fieldsListOf (allFields : Fields.t) : list string :=
  foldl (fun acc val => acc ++ Fields.get allFields val) [] actions.

Definition validateUpdateFields (allFields : Fields.t) (item : Req.t)
    (config : Config) : Result unit :=
  let fieldsList := fieldsListOf allFields in
  run forOf (checkAction allFields item config) actions;
  run dupeLoop ∅ fieldsList;
  run checkAddTypes allFields item;
  checkAppendTypes allFields item.

Definition validateConfig (config : Config) : Result unit :=
  throwIf (negb (bool_decide (is_Some (actionRules config)))) MalformedConfiguration.
End Validation.

(* ===================================================================== *)
(** ** Compilation of the update expression *)
(* ===================================================================== *)

(** What [updateExpressionBuilder] returns. *)
Record Built : Type := {
  updateExpression : string;
  expressionAttributeNames : gmap string string;
  expressionAttributeValues : gmap string JsValue
}.

(** [setExpPortion], [addExpPortion] and [appendExpPortion] hold either a
    string or the array a [map] returned. *)
Inductive Portion : Type :=
| PString (s : string)
| PArray (xs : list string).

(** [exp?.length] *)
Definition portionLength (p : Portion) : nat :=
  match p with
  | PString s => String.length s
  | PArray xs => length xs
  end.

(** The string of a portion: an array gives its elements joined by
    commas. *)
Definition portionToString (p : Portion) : string :=
  match p with
  | PString s => s
  | PArray xs => String.concat "," xs
  end.

Definition nonEmpty {A : Type} (xs : list A) : bool :=
  bool_decide (0 < length xs)%nat.

(** [fields.map((field) => names[`#${field}`] = field)] *)
Definition registerNames (fields : list string) (names : gmap string string)
    : gmap string string :=
  foldl (fun names field => <["#" +:+ field := field]> names) names fields.

Section Builder.
Context `{Runtime}.

(** [fields.map((field) => values[`:${field}`] = marshall(bucket[field], options))] *)
Fixpoint registerValues (options : MarshallOptions) (bucket : option JsObject)
    (fields : list string) (values : gmap string JsValue)
    : Result (gmap string JsValue) :=
  match fields with
  | [] => Ok values
  | field :: rest =>
      do v <- readField bucket field;
      registerValues options bucket rest (<[":" +:+ field := marshall options v]> values)
  end.

Definition setOptions : MarshallOptions :=
  {| convertTopLevelContainer := true; removeUndefinedValues := true |}.

Definition addOptions : MarshallOptions :=
  {| convertTopLevelContainer := false; removeUndefinedValues := true |}.

Definition updateExpressionBuilder (allFields : Fields.t) (item : Req.t)
    : Result Built :=
  let fset := Fields.set allFields in
  let fadd := Fields.add allFields in
  let fappend := Fields.append allFields in
  let fremove := Fields.remove allFields in
  let addExpression := "" in
  (* Handle SET expression *)
  do setPart <-
    (if nonEmpty fset || nonEmpty fadd || nonEmpty fappend then
       (* Combine set expressions *)
       do afterSet <-
         (if nonEmpty fset then
            do values <- registerValues setOptions (Req.set item) fset ∅;
            Ok (PArray (map (fun field => " #" +:+ field +:+ " = :" +:+ field) fset),
                registerNames fset ∅, values)
          else Ok (PString "", ∅, ∅));
       let '(setExpPortion, setNames, setValues) := afterSet in
       (* Combine add expressions *)
       do afterAdd <-
         (if nonEmpty fadd then
            do values <-
              registerValues addOptions (Req.add item) fadd
                (<[":add__start__value" := marshall noOptions (JNum 0)]> setValues);
            Ok (PArray (map (fun field =>
                               " #" +:+ field +:+ " = if_not_exists(#" +:+ field
                                 +:+ ", :add__start__value) + :" +:+ field) fadd),
                registerNames fadd setNames, values)
          else Ok (PString "", setNames, setValues));
       let '(addExpPortion, setNames, setValues) := afterAdd in
       (* Combine append expressions *)
       do afterAppend <-
         (if nonEmpty fappend then
            do values <-
              registerValues setOptions (Req.append item) fappend
                (<[":append__start__value" := JObj [("L", JArr [])]]> setValues);
            Ok (PString ("" +:+ portionToString (PArray (map (fun field =>
                               " #" +:+ field +:+ " = list_append(if_not_exists(#"
                                 +:+ field +:+ ", :append__start__value), :"
                                 +:+ field +:+ ")") fappend))),
                registerNames fappend setNames, values)
          else Ok (PString "", setNames, setValues));
       let '(appendExpPortion, setNames, setValues) := afterAppend in
       (* Combine SET expressions *)
       Ok ("SET" +:+ String.concat ","
                       (map portionToString
                            (List.filter (fun exp => bool_decide (0 < portionLength exp)%nat)
                                         [setExpPortion; addExpPortion; appendExpPortion])),
           setNames, setValues)
     else Ok ("", ∅, ∅));
  let '(setExpression, setNames, setValues) := setPart in
  (* Handle REMOVE expression *)
  let '(removeExpression, removeNames) :=
    if nonEmpty fremove then
      ("REMOVE" +:+ String.concat "," (map (fun field => " #" +:+ field) fremove),
       registerNames fremove ∅)
    else ("", ∅) in
  (* Combine all expressions *)
  Ok {| updateExpression :=
          String.concat " "
            (List.filter (fun exp => bool_decide (0 < String.length exp)%nat)
                         [setExpression; addExpression; removeExpression]);
        expressionAttributeNames := removeNames ∪ setNames;
        expressionAttributeValues := setValues |}.
End Builder.

(* ===================================================================== *)
(** ** The handler *)
(* ===================================================================== *)

(** The [data] of an update object. *)
Record UpdateData : Type := {
  TableName : string;
  Key : JsValue;
  UpdateExpression : string;
  ExpressionAttributeNames : gmap string string;
  ExpressionAttributeValues : gmap string JsValue;
  ConditionExpression : string
}.

Record UpdateObj : Type := {
  action : string;
  data : UpdateData
}.

(** [clearRequestFieldFromAllActions]: one turn of its loop. *)
Definition clearStep (field : string) (request : Req.t) (action : MapAction) : Req.t :=
  let request :=
    match mapping request action with
    | Some o => withMapping request action (deleteProp o field)
    | None => request
    end in
  match Req.remove request with
  | Some fs => withRemove request (filter (fun f => f ≠ field) fs)
  | None => request
  end.

Definition clearRequestFieldFromAllActions (field : string) (request : Req.t) : Req.t :=
  foldl (clearStep field) request [MSET; MADD; MAPPEND].

(** [config.actionRules[action].whitelist.push(field)] *)
Definition pushWhitelist (config : Config) (action field : string) : Config :=
  match actionRules config with
  | Some rules =>
      match rules !! action with
      | Some rule =>
          match Rule.whitelist rule with
          | Some whitelist =>
              {| actionRules :=
                   Some (<[action :=
                             {| Rule.allowAll := Rule.allowAll rule;
                                Rule.whitelist := Some (whitelist ++ [field]);
                                Rule.blacklist := Rule.blacklist rule;
                                Rule.mandatoryFields := Rule.mandatoryFields rule |}]>
                           rules);
                 autoTimestamp := autoTimestamp config;
                 autoVersion := autoVersion config;
                 failOnError := failOnError config |}
          | None => config
          end
      | None => config
      end
  | None => config
  end.

(** [includeFieldInAction]: the request and the configuration after the
    call. *)
Definition includeFieldInAction (field : string) (value : JsValue)
    (action : MapAction) (request : Req.t) (config : Config) : Req.t * Config :=
  let request :=
    match mapping request action with
    | Some _ => request
    | None => withMapping request action []
    end in
  let request :=
    withMapping request action
      (setProp (default [] (mapping request action)) field value) in
  (request, pushWhitelist config (actionName (toAction action)) field).

(** [updateList.map((item) => { clear...; include... })]: every item is
    updated in place, and the configuration is threaded through.  The
    items are taken to be distinct objects, as [JSON.parse] yields them;
    the update of an item is idempotent ([stamped_idempotent] below), so
    an object listed twice would end in the same state. *)
Fixpoint autoField (field : string) (value : JsValue) (action : MapAction)
    (updateList : list Req.t) (config : Config) : list Req.t * Config :=
  match updateList with
  | [] => ([], config)
  | item :: rest =>
      let item := clearRequestFieldFromAllActions field item in
      let '(item, config) := includeFieldInAction field value action item config in
      let '(rest, config) := autoField field value action rest config in
      (item :: rest, config)
  end.

(** The two passes that add the automatic fields. *)
Definition autoFields (now : string) (updateList : list Req.t) (config : Config)
    : list Req.t * Config :=
  let '(updateList, config) :=
    if autoTimestamp config
    then autoField "lastUpdated" (JStr now) MSET updateList config
    else (updateList, config) in
  if autoVersion config
  then autoField "version" (JNum 1) MADD updateList config
  else (updateList, config).

(** [Object.keys] of a bucket that may be absent. *)
Definition keysOrEmpty (bucket : option JsObject) : list string :=
  match bucket with
  | Some o => Object_keys o
  | None => []
  end.

(** The object [allFields] the handler extracts from an item. *)
Definition extractFields (item : Req.t) : Fields.t :=
  {| Fields.set := keysOrEmpty (Req.set item);
     Fields.remove := default [] (Req.remove item);
     Fields.add := keysOrEmpty (Req.add item);
     Fields.append := keysOrEmpty (Req.append item) |}.

Section Handler.
Context `{Runtime}.

(** [!key || !key?.pk || !key?.sk] *)
Definition malformedKey (key : option JsObject) : bool :=
  match key with
  | None => true
  | Some k => negb (truthy (getProp k "pk")) || negb (truthy (getProp k "sk"))
  end.

(** [`${key}`] *)
Definition keyToString (key : option JsObject) : string :=
  match key with
  | None => "undefined"
  | Some _ => "[object Object]"
  end.

(** The body of the inner [try] of the loop over [updateList]: the
    update object of one item, or what was thrown. *)
Definition compileItem (tableName : string) (item : Req.t) (config : Config)
    : Result UpdateObj :=
  let key := Req.key item in
  run throwIf (malformedKey key) (MalformedKey (keyToString key));
  let allFields := extractFields item in
  run validateUpdateFields allFields item config;
  do built <- updateExpressionBuilder allFields item;
  Ok {| action := "Update";
        data := {| TableName := tableName;
                   Key := marshall noOptions (JObj (default [] (Req.key item)));
                   UpdateExpression := updateExpression built;
                   ExpressionAttributeNames := expressionAttributeNames built;
                   ExpressionAttributeValues := expressionAttributeValues built;
                   ConditionExpression := "attribute_exists(pk)" |} |}.

(** The loop [for (const item of updateList)]: [updateItems] is the
    list built so far and [logged] what [logger.error] has received.
    A throw under [failOnError] leaves the loop with the error. *)
Fixpoint compileLoop (tableName : string) (config : Config)
    (updateList : list Req.t) (updateItems : list UpdateObj) (logged : list Thrown)
    : Result (list UpdateObj) * list Thrown :=
  match updateList with
  | [] => (Ok updateItems, logged)
  | item :: rest =>
      match compileItem tableName item config with
      | Ok updateObj =>
          compileLoop tableName config rest (updateItems ++ [updateObj]) logged
      | Throw error =>
          if failOnError config then (Throw error, logged)
          else compileLoop tableName config rest updateItems (logged ++ [error])
      end
  end.

(** The outcome of a call: what it returns or throws, the requests and
    the configuration as the call leaves them, and the errors logged. *)
Record Outcome : Type := {
  returned : Result (list UpdateObj);
  requestsAfter : list Req.t;
  configAfter : Config;
  logged : list Thrown
}.

(** [quickApiUpdateHandler], with [now] the value of [getNowISO()]. *)
Definition quickApiUpdateHandler (now : string) (tableName : string)
    (updateList : list Req.t) (config : Config) : Outcome :=
  match validateConfig config with
  | Throw e =>
      {| returned := Throw e; requestsAfter := updateList;
         configAfter := config; logged := [] |}
  | Ok _ =>
      let '(updateList, config) := autoFields now updateList config in
      let '(result, errors) := compileLoop tableName config updateList [] [] in
      {| returned := result; requestsAfter := updateList;
         configAfter := config; logged := errors |}
  end.
End Handler.

(* ===================================================================== *)
(** ** A runtime to evaluate examples with *)
(* ===================================================================== *)

(** The attribute value of a JSON value, as the client library's
    [convertToAttr] gives it: [{S: ..}], [{N: ..}], [{BOOL: ..}],
    [{NULL: true}], [{L: [..]}], [{M: {..}}]. *)
Fixpoint convertToAttr (v : JsValue) : JsValue :=
  match v with
  | JUndefined => JUndefined
  | JNull => JObj [("NULL", JBool true)]
  | JBool b => JObj [("BOOL", JBool b)]
  | JNum n => JObj [("N", JStr (NilZero.string_of_int (Z.to_int n)))]
  | JStr s => JObj [("S", JStr s)]
  | JArr elems => JObj [("L", JArr (map convertToAttr elems))]
  | JObj props =>
      JObj [("M", JObj (map (fun kv => (fst kv, convertToAttr (snd kv))) props))]
  end.

(** [marshall] on JSON values: a top-level list or map is unwrapped
    unless [convertTopLevelContainer] is set. *)
Definition marshallJson (options : MarshallOptions) (v : JsValue) : JsValue :=
  match convertToAttr v with
  | JObj [("M", inner)] =>
      if convertTopLevelContainer options then JObj [("M", inner)] else inner
  | JObj [("L", inner)] =>
      if convertTopLevelContainer options then JObj [("L", inner)] else inner
  | attributeValue => attributeValue
  end.

Definition isDigit (c : ascii) : bool :=
  let n := Ascii.nat_of_ascii c in
  bool_decide (48 ≤ n)%nat && bool_decide (n ≤ 57)%nat.

Fixpoint digitsValue (acc : Z) (s : string) : option Z :=
  match s with
  | EmptyString => Some acc
  | String c rest =>
      if isDigit c
      then digitsValue (10 * acc + Z.of_nat (Ascii.nat_of_ascii c - 48)) rest
      else None
  end.

(** Strings of decimal digits and the empty string converted as the
    language converts them; every other string is taken as [NaN]. *)
Definition digitsToNumber (s : string) : option Z := digitsValue 0 s.

Definition sampleRuntime : Runtime :=
  {| marshall := marshallJson; StringToNumber := digitsToNumber |}.

(* ===================================================================== *)
(** ** Requests and policies of the examples *)
(* ===================================================================== *)

(** [{allowAll: true}] *)
Definition ruleAllowAll : Rule.t :=
  {| Rule.allowAll := Some true; Rule.whitelist := None;
     Rule.blacklist := None; Rule.mandatoryFields := None |}.

(** [{whitelist: [...]}] *)
Definition ruleWhitelist (fields : list string) : Rule.t :=
  {| Rule.allowAll := None; Rule.whitelist := Some fields;
     Rule.blacklist := None; Rule.mandatoryFields := None |}.

(** [{actionRules: rules}], the three flags unset. *)
Definition policy (rules : gmap string Rule.t) : Config :=
  {| actionRules := Some rules; autoTimestamp := false;
     autoVersion := false; failOnError := false |}.

(** [{actionRules: rules, failOnError: true}] *)
Definition policyFailFast (rules : gmap string Rule.t) : Config :=
  {| actionRules := Some rules; autoTimestamp := false;
     autoVersion := false; failOnError := true |}.

(** [{actionRules: rules, autoTimestamp: true, autoVersion: true}] *)
Definition policyAuto (rules : gmap string Rule.t) : Config :=
  {| actionRules := Some rules; autoTimestamp := true;
     autoVersion := true; failOnError := false |}.

(** A configuration without [actionRules]. *)
Definition policyNoRules : Config :=
  {| actionRules := None; autoTimestamp := true;
     autoVersion := true; failOnError := false |}.

(** [{pk: "a", sk: "b"}] *)
Definition keyAB : JsObject := [("pk", JStr "a"); ("sk", JStr "b")].

(** A request with the key [keyAB] and the given buckets. *)
Definition request (set : option JsObject) (remove : option (list string))
    (add append : option JsObject) : Req.t :=
  {| Req.key := Some keyAB; Req.set := set; Req.remove := remove;
     Req.add := add; Req.append := append |}.

(** [{key: {pk: "a", sk: "b"}, set: {status: "done"}}] *)
Definition reqSetStatus : Req.t :=
  request (Some [("status", JStr "done")]) None None None.

(** [{key: .., remove: ["status"]}] *)
Definition reqRemoveStatus : Req.t :=
  request None (Some ["status"]) None None.

(** [{key: .., set: {a: 1}, remove: ["a"]}] *)
Definition reqSetRemoveA : Req.t :=
  request (Some [("a", JNum 1)]) (Some ["a"]) None None.

(** [{key: .., set: {a: 1}, add: {a: 2}}] *)
Definition reqSetAddA : Req.t :=
  request (Some [("a", JNum 1)]) None (Some [("a", JNum 2)]) None.



(** [{key: .., add: {count: null}}] *)
Definition reqAddNull : Req.t :=
  request None None (Some [("count", JNull)]) None.

(** [{key: .., set: {secret: "x"}}] *)
Definition reqSetSecret : Req.t :=
  request (Some [("secret", JStr "x")]) None None None.

(** [{key: .., remove: ["secret"]}] *)
Definition reqRemoveSecret : Req.t :=
  request None (Some ["secret"]) None None.

(** [{key: .., set: {lastUpdated: "old", version: 7}, remove: ["lastUpdated", "x"],
      add: {version: 5}, append: {lastUpdated: [], version: []}}] *)
Definition reqStale : Req.t :=
  request (Some [("lastUpdated", JStr "old"); ("version", JNum 7)])
          (Some ["lastUpdated"; "x"])
          (Some [("version", JNum 5)])
          (Some [("lastUpdated", JArr []); ("version", JArr [])]).

(** [{key: .., append: {tags: ["a"], note: "x"}}] *)
Definition reqAppendBad : Req.t :=
  request None None None
          (Some [("tags", JArr [JStr "a"]); ("note", JStr "x")]).

(** [{key: .., set: {add__start__value: "mine", status: "done"},
      remove: ["old"], add: {hits: 2}, append: {tags: ["a"]}}] *)
Definition reqAllBuckets : Req.t :=
  request (Some [("add__start__value", JStr "mine"); ("status", JStr "done")])
          (Some ["old"])
          (Some [("hits", JNum 2)])
          (Some [("tags", JArr [JStr "a"])]).

(** [{actionRules: {set: .., remove: .., add: .., append: ..}}], each
    with [allowAll: true]. *)
Definition policyAllowEverything : Config :=
  policy {[ "set" := ruleAllowAll; "remove" := ruleAllowAll;
            "add" := ruleAllowAll; "append" := ruleAllowAll ]}.

(** A request without key. *)
Definition reqNoKey : Req.t :=
  {| Req.key := None; Req.set := Some [("status", JStr "done")];
     Req.remove := None; Req.add := None; Req.append := None |}.

(** A request with a key and no bucket. *)
Definition reqNoBuckets : Req.t := request None None None None.

(** The field occurs in the request exactly once: in the bucket of
    [action], with the given value, and in no other bucket. *)
Definition onlyIn (field : string) (value : JsValue) (action : MapAction)
    (item : Req.t) : Prop :=
  (exists o, mapping item action = Some o
             /\ filter (fun kv => fst kv = field) o = [(field, value)])
  /\ (field ∉ default [] (Req.remove item))
  /\ (forall other, other <> action -> field ∉ keysOrEmpty (mapping item other)).

(** The request after the two calls the handler makes on an item for an
    automatic field. *)
Definition stamped (field : string) (value : JsValue) (action : MapAction)
    (item : Req.t) (config : Config) : Req.t :=
  fst (includeFieldInAction field value action
         (clearRequestFieldFromAllActions field item) config).

(** Whether the rule of an action is present with [allowAll: true]. *)
Definition allowsAll (config : Config) (action : Action) : bool :=
  match rulesFor config (actionName action) with
  | Some rules => bool_decide (Rule.allowAll rules = Some true)
  | None => false
  end.

(* ===================================================================== *)
(** ** Closed forms *)
(* ===================================================================== *)

(** The clauses of the update expression, one per field. *)
Definition setClause (field : string) : string :=
  " #" +:+ field +:+ " = :" +:+ field.

Definition addClause (field : string) : string :=
  " #" +:+ field +:+ " = if_not_exists(#" +:+ field
    +:+ ", :add__start__value) + :" +:+ field.

Definition appendClause (field : string) : string :=
  " #" +:+ field +:+ " = list_append(if_not_exists(#" +:+ field
    +:+ ", :append__start__value), :" +:+ field +:+ ")".

Definition removeClause (field : string) : string := " #" +:+ field.

(** The update expression of the field names: [SET] with the clauses of
    ["set"], ["add"] and ["append"], in this order, then [REMOVE] with
    the names to remove, the two parts separated by one space; a part
    without clause is left out. *)
Definition expressionOf (allFields : Fields.t) : string :=
  let setClauses :=
    map setClause (Fields.set allFields)
      ++ map addClause (Fields.add allFields)
      ++ map appendClause (Fields.append allFields) in
  let removeClauses := map removeClause (Fields.remove allFields) in
  match setClauses, removeClauses with
  | [], [] => ""
  | _ :: _, [] => "SET" +:+ String.concat "," setClauses
  | [], _ :: _ => "REMOVE" +:+ String.concat "," removeClauses
  | _ :: _, _ :: _ =>
      ("SET" +:+ String.concat "," setClauses)
        +:+ " " +:+ ("REMOVE" +:+ String.concat "," removeClauses)
  end.

(** The names a compiled request registers: [{...setNames, ...removeNames}]
    with the names of the four buckets. *)
Definition namesOf (allFields : Fields.t) : gmap string string :=
  registerNames (Fields.remove allFields) ∅
    ∪ registerNames (Fields.append allFields)
        (registerNames (Fields.add allFields)
           (registerNames (Fields.set allFields) ∅)).

Section ClosedValues.
Context `{Runtime}.

(** The assignments [values[`:${field}`] = marshall(o[field], options)]
    for the fields of an object, in order. *)
Definition bindValues (options : MarshallOptions) (o : JsObject)
    (fields : list string) (values : gmap string JsValue) : gmap string JsValue :=
  foldl (fun values field => <[":" +:+ field := marshall options (getProp o field)]> values)
        values fields.

(** The values a compiled request registers, in the order of the
    assignments of the builder. *)
Definition valuesOf (item : Req.t) : gmap string JsValue :=
  let fset := keysOrEmpty (Req.set item) in
  let fadd := keysOrEmpty (Req.add item) in
  let fappend := keysOrEmpty (Req.append item) in
  let v1 := bindValues setOptions (default [] (Req.set item)) fset ∅ in
  let v2 :=
    bindValues addOptions (default [] (Req.add item)) fadd
      (if nonEmpty fadd
       then <[":add__start__value" := marshall noOptions (JNum 0)]> v1
       else v1) in
  bindValues setOptions (default [] (Req.append item)) fappend
    (if nonEmpty fappend
     then <[":append__start__value" := JObj [("L", JArr [])]]> v2
     else v2).

(** What the placeholder [:field] is bound to, by the last assignment
    that wrote it: a field of ["append"], else the reserved empty list,
    else a field of ["add"], else the reserved zero, else a field of
    ["set"]. *)
Definition boundValue (item : Req.t) (field : string) : option JsValue :=
  if bool_decide (field ∈ keysOrEmpty (Req.append item)) then
    Some (marshall setOptions (getProp (default [] (Req.append item)) field))
  else if nonEmpty (keysOrEmpty (Req.append item))
          && bool_decide (field = "append__start__value") then
    Some (JObj [("L", JArr [])])
  else if bool_decide (field ∈ keysOrEmpty (Req.add item)) then
    Some (marshall addOptions (getProp (default [] (Req.add item)) field))
  else if nonEmpty (keysOrEmpty (Req.add item))
          && bool_decide (field = "add__start__value") then
    Some (marshall noOptions (JNum 0))
  else if bool_decide (field ∈ keysOrEmpty (Req.set item)) then
    Some (marshall setOptions (getProp (default [] (Req.set item)) field))
  else None.
End ClosedValues.

(** What the two passes of the handler make of one item. *)
Definition prepare (now : string) (config : Config) (item : Req.t) : Req.t :=
  let item :=
    if autoTimestamp config
    then stamped "lastUpdated" (JStr now) MSET item config
    else item in
  if autoVersion config
  then stamped "version" (JNum 1) MADD item config
  else item.

(** A function that may throw applied to every element in turn: the
    first throw is the result. *)
Fixpoint mapM {A B : Type} (f : A -> Result B) (xs : list A) : Result (list B) :=
  match xs with
  | [] => Ok []
  | x :: rest =>
      do y <- f x;
      do ys <- mapM f rest;
      Ok (y :: ys)
  end.

(** The result of a call that did not throw. *)
Definition okOf {A : Type} (r : Result A) : option A :=
  match r with
  | Ok a => Some a
  | Throw _ => None
  end.

(** What a call threw. *)
Definition thrownOf {A : Type} (r : Result A) : option Thrown :=
  match r with
  | Ok _ => None
  | Throw e => Some e
  end.

(* ===================================================================== *)
(** ** The handler that updates the feature flags *)
(* ===================================================================== *)

(** [exports.handler] of the feature-flag update.  Its collaborators
    ([validateSuperAdminAuth], [JSON.parse], [getOne], [getNowISO],
    [putItem], [writeAuditLog], [sendResponse]) are outside the
    repository: what they return or throw is part of the environment of a
    call, and a response is the arguments [sendResponse] is called
    with. *)
Module FeatureFlags.

(** What the handler reads of a value that was thrown: its [code],
    [message] and [error] properties, [undefined] when absent. *)
Record Raised : Type := {
  code : JsValue;
  message : JsValue;
  error : JsValue
}.

(** [new Exception(message, { code: 400 })] *)
Definition exception400 (text : string) : Raised :=
  {| code := JNum 400; message := JStr text; error := JUndefined |}.

(** The fourth argument of [sendResponse]: [null], a value, or the
    thrown value itself. *)
Inductive ErrorArg : Type :=
| NoError
| Detail (v : JsValue)
| Whole (e : Raised).

(** [sendResponse(statusCode, data, message, error, context)] *)
Record Response : Type := {
  statusCode : Z;
  data : JsValue;
  responseMessage : JsValue;
  responseError : ErrorArg
}.

(** The claims [validateSuperAdminAuth] returns. *)
Record Claims : Type := {
  sub : JsValue;
  email : JsValue
}.

(** The record [getOne] finds: its [flags] ([undefined] when absent) and
    its [version], a number when present. *)
Record Stored : Type := {
  storedFlags : JsValue;
  storedVersion : option Z
}.

(** The calls to the collaborators that write. *)
Inductive Call : Type :=
| PutItem (item : JsValue)
| WriteAuditLog (user : JsValue) (entity action : string) (details : JsValue).

(** The environment of one call: the method of the event, and what each
    collaborator returns ([inr]) or throws ([inl], [Some]). *)
Record Env : Type := {
  httpMethod : JsValue;
  validateSuperAdminAuth : Raised + Claims;
  parsedBody : Raised + JsValue;
  getOne : Raised + option Stored;
  getNowISO : string;
  putItem : JsValue -> option Raised;
  writeAuditLog : JsValue -> JsValue -> option Raised
}.

(** [v[k]] for a value that is not [null] or [undefined]: a property of
    an object, [undefined] for the name [flags] on anything else. *)
Definition propOf (v : JsValue) (k : string) : JsValue :=
  match v with
  | JObj o => getProp o k
  | _ => JUndefined
  end.

(** The decimal numeral of an index. *)
Definition indexKey (i : nat) : string := NilZero.string_of_uint (Nat.to_uint i).

Fixpoint indexed {A : Type} (i : nat) (xs : list A) : list (string * A) :=
  match xs with
  | [] => []
  | x :: rest => (indexKey i, x) :: indexed (S i) rest
  end.

Fixpoint characters (s : string) : list JsValue :=
  match s with
  | EmptyString => []
  | String c rest => JStr (String c EmptyString) :: characters rest
  end.

(** [Object.entries(v)] for a truthy value: the properties of an object,
    the elements of an array and the characters of a string under their
    indices, nothing for a number or a boolean. *)
Definition Object_entries (v : JsValue) : list (string * JsValue) :=
  match v with
  | JObj o => o
  | JArr elems => indexed 0 elems
  | JStr s => indexed 0 (characters s)
  | _ => []
  end.

(** [typeof value === 'boolean'] *)
Definition isBoolean (v : JsValue) : bool :=
  match v with JBool _ => true | _ => false end.

(** The double quote. *)
Definition quote : string := String (Ascii.ascii_of_nat 34) EmptyString.

Definition flagMessage (key : string) : string :=
  "Flag " +:+ quote +:+ key +:+ quote +:+ " must be a boolean value".

(** The loop over the entries of [body.flags]: the exception of the
    first value that is not a boolean. *)
Fixpoint checkFlags (entries : list (string * JsValue)) : option Raised :=
  match entries with
  | [] => None
  | (key, value) :: rest =>
      if negb (isBoolean value) then Some (exception400 (flagMessage key))
      else checkFlags rest
  end.

(** [method === 'OPTIONS'] *)
Definition isOptions (method : JsValue) : bool :=
  match method with
  | JStr s => String.eqb s "OPTIONS"
  | _ => false
  end.

(** [x || y] *)
Definition orElse (x y : JsValue) : JsValue := if truthy x then x else y.

(** The record the handler writes. *)
Definition updatedConfig (flags : JsValue) (timestamp : string) (claims : Claims)
    (currentConfig : option Stored) : JsValue :=
  JObj [("pk", JStr "config");
        ("sk", JStr "featureFlags");
        ("flags", flags);
        ("metadata", JObj [("lastUpdated", JStr timestamp);
                           ("updatedBy", sub claims);
                           ("updatedByEmail", orElse (email claims) (JStr "unknown"))]);
        ("version",
         JNum (match currentConfig with
               | Some stored =>
                   match storedVersion stored with
                   | Some n => if Z.eqb n 0 then 0 else n
                   | None => 0
                   end
               | None => 0
               end + 1))].

(** The details of the audit entry. *)
Definition auditDetails (flags : JsValue) (timestamp : string) (claims : Claims)
    (currentConfig : option Stored) : JsValue :=
  JObj [("previousFlags",
         orElse (match currentConfig with
                 | Some stored => storedFlags stored
                 | None => JUndefined
                 end) (JObj []));
        ("newFlags", flags);
        ("changedBy", orElse (email claims) (sub claims));
        ("timestamp", JStr timestamp)].

Section Handler.
Context `{Runtime}.

(** The response of the [catch] block. *)
Definition failure (e : Raised) : Response :=
  {| statusCode :=
       match ToNumber (code e) with
       | Some n => if Z.eqb n 0 then 400 else n
       | None => 400
       end;
     data := JNull;
     responseMessage := orElse (message e) (JStr "Error updating feature flags");
     responseError := if truthy (error e) then Detail (error e) else Whole e |}.

(** The handler: its response and the calls it made to [putItem] and
    [writeAuditLog], in order. *)
Definition handler (env : Env) : Response * list Call :=
  if isOptions (httpMethod env) then
    ({| statusCode := 200; data := JNull; responseMessage := JStr "Success";
        responseError := NoError |}, [])
  else
    match validateSuperAdminAuth env with
    | inl e => (failure e, [])
    | inr claims =>
        match parsedBody env with
        | inl e => (failure e, [])
        | inr body =>
            if negb (truthy body) || negb (truthy (propOf body "flags")) then
              (failure (exception400 "Request body with flags is required"), [])
            else
              let flags := propOf body "flags" in
              match checkFlags (Object_entries flags) with
              | Some e => (failure e, [])
              | None =>
                  match getOne env with
                  | inl e => (failure e, [])
                  | inr currentConfig =>
                      let timestamp := getNowISO env in
                      let item := updatedConfig flags timestamp claims currentConfig in
                      let details := auditDetails flags timestamp claims currentConfig in
                      match putItem env item with
                      | Some e => (failure e, [PutItem item])
                      | None =>
                          let calls :=
                            [PutItem item;
                             WriteAuditLog (sub claims) "featureFlags"
                                           "FEATURE_FLAGS_UPDATE" details] in
                          match writeAuditLog env (sub claims) details with
                          | Some e => (failure e, calls)
                          | None =>
                              ({| statusCode := 200;
                                  data := JObj [("flags", propOf item "flags");
                                                ("metadata", propOf item "metadata");
                                                ("version", propOf item "version")];
                                  responseMessage :=
                                    JStr "Feature flags updated successfully";
                                  responseError := NoError |}, calls)
                          end
                      end
                  end
              end
        end
    end.
End Handler.
End FeatureFlags.

(** Environments of the examples: a super admin, a stored record at
    version 4, collaborators that succeed. *)
Definition adminClaims : FeatureFlags.Claims :=
  {| FeatureFlags.sub := JStr "user-1"; FeatureFlags.email := JStr "admin@example.org" |}.

Definition storedV4 : FeatureFlags.Stored :=
  {| FeatureFlags.storedFlags := JObj [("enablePayments", JBool true)];
     FeatureFlags.storedVersion := Some 4 |}.

(** A call whose body parses to [body]; [audit] is what [writeAuditLog]
    throws, if anything. *)
Definition flagsEnv (body : JsValue) (audit : option FeatureFlags.Raised)
    : FeatureFlags.Env :=
  {| FeatureFlags.httpMethod := JStr "PUT";
     FeatureFlags.validateSuperAdminAuth := inr adminClaims;
     FeatureFlags.parsedBody := inr body;
     FeatureFlags.getOne := inr (Some storedV4);
     FeatureFlags.getNowISO := "2026-01-01T00:00:00.000Z";
     FeatureFlags.putItem := fun _ => None;
     FeatureFlags.writeAuditLog := fun _ _ => audit |}.

(** [{flags: {enablePayments: false, beta: "yes"}}] *)
Definition bodyBadFlag : JsValue :=
  JObj [("flags", JObj [("enablePayments", JBool false); ("beta", JStr "yes")])].

(** [{flags: {enablePayments: false}}] *)
Definition bodyGoodFlags : JsValue :=
  JObj [("flags", JObj [("enablePayments", JBool false)])].

(** An error of the audit table, with the code 500. *)
Definition auditDown : FeatureFlags.Raised :=
  {| FeatureFlags.code := JNum 500; FeatureFlags.message := JStr "audit table down";
     FeatureFlags.error := JUndefined |}.

(* ===================================================================== *)
(** ** Loops that may throw *)
(* ===================================================================== *)


Lemma forOf_Throw {A : Type} (body : A -> Result unit) (xs : list A) (e : Thrown) :
  forOf body xs = Throw e <->
  exists pre x post,
    xs = pre ++ x :: post /\ Forall (fun y => body y = Ok tt) pre /\ body x = Throw e.
Proof.
  induction xs as [|x rest IH]; simpl.
  - split; [discriminate |].
    intros (pre & y & post & Heq & _). destruct pre; discriminate.
  - destruct (body x) as [[]|e'] eqn:Hx; simpl.
    + rewrite IH. split.
      * intros (pre & y & post & -> & Hpre & Hy).
        exists (x :: pre), y, post. repeat split; [constructor|]; assumption.
      * intros (pre & y & post & Heq & Hpre & Hy).
        destruct pre as [|p pre]; simpl in Heq; injection Heq as -> ->.
        -- congruence.
        -- exists pre, y, post. inversion Hpre; subst. repeat split; assumption.
    + split.
      * intros [= ->]. exists [], x, rest. repeat split; [constructor | assumption].
      * intros (pre & y & post & Heq & Hpre & Hy).
        destruct pre as [|p pre]; simpl in Heq; injection Heq as -> ->.
        -- congruence.
        -- inversion Hpre; congruence.
Qed.

Lemma Result_unit_cases (r : Result unit) : r = Ok tt \/ exists e, r = Throw e.
Proof. destruct r as [[]|e]; [left; reflexivity | right; exists e; reflexivity]. Qed.

(* ===================================================================== *)
(** ** The permission loop *)
(* ===================================================================== *)

Section PermissionFacts.
Context `{Runtime}.

(** Whatever [checkAction] throws is the "action not permitted"
    exception of its own action: the guard on [allowAll] sends every
    rule without [allowAll: true] to the deny branch and every rule
    with it to [continue], so the whitelist, blacklist and mandatory
    field branches are never entered. *)
Lemma checkAction_Throw allFields item config action e :
  checkAction allFields item config action = Throw e ->
  e = ActionNotPermitted (actionName action)
  /\ hasAction item action = true
  /\ lengthGtZero item action = true
  /\ (forall rules, rulesFor config (actionName action) = Some rules ->
                    Rule.allowAll rules <> Some true).
Proof.
  unfold checkAction, throwIf.
  destruct (hasAction item action); simpl; [|discriminate].
  destruct (rulesFor config (actionName action)) as [rules|].
  - destruct (bool_decide (Rule.allowAll rules = Some true)) eqn:Hall; simpl;
      [discriminate|].
    destruct (lengthGtZero item action); [|discriminate].
    intros [= <-]. repeat split.
    intros rules' [= <-]. apply bool_decide_eq_false in Hall. exact Hall.
  - destruct (lengthGtZero item action); [|discriminate].
    intros [= <-]. repeat split. intros rules' [=].
Qed.

(** The result of [checkAction] does not depend on the lists of the
    rule, nor on [allFields]. *)
Lemma checkAction_spec allFields item config action :
  checkAction allFields item config action =
  if hasAction item action && negb (allowsAll config action)
     && lengthGtZero item action
  then Throw (ActionNotPermitted (actionName action))
  else Ok tt.
Proof.
  unfold checkAction, throwIf, allowsAll.
  destruct (hasAction item action); simpl; [|reflexivity].
  destruct (rulesFor config (actionName action)) as [rules|]; [|reflexivity].
  destruct (bool_decide (Rule.allowAll rules = Some true)); reflexivity.
Qed.

Lemma permissionLoop_Throw allFields item config e :
  forOf (checkAction allFields item config) actions = Throw e ->
  exists action, e = ActionNotPermitted (actionName action)
                 /\ lengthGtZero item action = true.
Proof.
  intros Hloop. apply forOf_Throw in Hloop as (pre & action & post & _ & _ & Hthrow).
  apply checkAction_Throw in Hthrow as (-> & _ & Hlen & _).
  exists action. split; [reflexivity | exact Hlen].
Qed.
End PermissionFacts.

(* ===================================================================== *)
(** ** The duplicate check *)
(* ===================================================================== *)

Lemma fieldsListOf_app (allFields : Fields.t) :
  fieldsListOf allFields =
  Fields.set allFields ++ Fields.remove allFields
    ++ Fields.add allFields ++ Fields.append allFields.
Proof. unfold fieldsListOf. simpl. rewrite <- !app_assoc. reflexivity. Qed.

(** The loop passes exactly on a list without repetition that avoids the
    names seen before. *)
Lemma dupeLoop_Ok (dupeCheck : gset string) (fieldsList : list string) :
  dupeLoop dupeCheck fieldsList = Ok tt <->
  NoDup fieldsList /\ (forall field, field ∈ fieldsList -> field ∉ dupeCheck).
Proof.
  revert dupeCheck.
  induction fieldsList as [|field rest IH]; intros dupeCheck; simpl.
  - split; [|reflexivity]. intros _. split; [constructor|]. intros f Hf. inversion Hf.
  - destruct (bool_decide (field ∈ dupeCheck)) eqn:Hseen.
    + apply bool_decide_eq_true in Hseen. split; [discriminate|].
      intros [_ Hfresh]. exfalso. apply (Hfresh field); [left | exact Hseen].
    + apply bool_decide_eq_false in Hseen. rewrite IH, NoDup_cons. split.
      * intros [Hnd Hfresh]. repeat split.
        -- intros Hin. apply (Hfresh field Hin).
           apply elem_of_union_l, elem_of_singleton. reflexivity.
        -- exact Hnd.
        -- intros f Hf Hseen'. apply elem_of_cons in Hf as [->|Hf];
             [contradiction|]. apply (Hfresh f Hf).
           apply elem_of_union_r. exact Hseen'.
      * intros [[Hnotin Hnd] Hfresh]. split; [exact Hnd|].
        intros f Hf Hseen'. apply elem_of_union in Hseen' as [Heq|Hold].
        -- apply elem_of_singleton in Heq as ->. contradiction.
        -- apply (Hfresh f); [right; exact Hf | exact Hold].
Qed.

(** What the loop throws names a field met for the second time. *)
Lemma dupeLoop_Throw (dupeCheck : gset string) (fieldsList : list string) (e : Thrown) :
  dupeLoop dupeCheck fieldsList = Throw e ->
  exists field before after,
    e = DuplicateField field
    /\ fieldsList = before ++ field :: after
    /\ (field ∈ dupeCheck \/ field ∈ before).
Proof.
  revert dupeCheck.
  induction fieldsList as [|field rest IH]; intros dupeCheck; simpl; [discriminate|].
  destruct (bool_decide (field ∈ dupeCheck)) eqn:Hseen.
  - apply bool_decide_eq_true in Hseen. intros [= <-].
    exists field, [], rest. repeat split. left; exact Hseen.
  - intros Hrest. apply IH in Hrest as (g & before & after & -> & -> & Hwhere).
    exists g, (field :: before), after. repeat split.
    destruct Hwhere as [Hin|Hin].
    + apply elem_of_union in Hin as [Heq|Hold]; [|left; exact Hold].
      apply elem_of_singleton in Heq as ->. right; left.
    + right; right; exact Hin.
Qed.

(** A field of two different buckets is repeated in [fieldsList]. *)
Lemma two_buckets_not_NoDup (allFields : Fields.t) (a1 a2 : Action) (field : string) :
  a1 <> a2 ->
  field ∈ Fields.get allFields a1 ->
  field ∈ Fields.get allFields a2 ->
  ~ NoDup (fieldsListOf allFields).
Proof.
  intros Hne H1 H2. rewrite fieldsListOf_app, !NoDup_app.
  intros (_ & Hs & _ & Hr & _ & Ha & _).
  destruct a1, a2; simpl in H1, H2; try congruence;
    first [ apply (Hs field); set_solver
          | apply (Hr field); set_solver
          | apply (Ha field); set_solver ].
Qed.

(* ===================================================================== *)
(** ** Properties of validation *)
(* ===================================================================== *)

Section ValidationFacts.
Context `{Runtime}.

(** When the permission loop raises nothing, validation is the
    duplicate check followed by the two type checks. *)
Lemma validate_after_permissions allFields item config :
  forOf (checkAction allFields item config) actions = Ok tt ->
  validateUpdateFields allFields item config =
  (run dupeLoop ∅ (fieldsListOf allFields);
   run checkAddTypes allFields item;
   checkAppendTypes allFields item).
Proof. intros Hloop. unfold validateUpdateFields. rewrite Hloop. reflexivity. Qed.

(** What the permission loop throws is what validation throws. *)
Lemma validate_permission_Throw allFields item config e :
  forOf (checkAction allFields item config) actions = Throw e ->
  validateUpdateFields allFields item config = Throw e.
Proof. intros Hloop. unfold validateUpdateFields. rewrite Hloop. reflexivity. Qed.
End ValidationFacts.

(** C3 (as amended).  A request in which one field name appears in two
    different buckets never passes validation, whichever the two buckets
    are.  The duplicate check runs once, over the list of the field names
    of all four buckets, after the permission loop: when that loop throws,
    validation fails with its "action not permitted" exception; when it
    does not, validation fails with [DuplicateField], naming a field that
    occurs twice in the list. *)
Theorem C3_duplicate_field_rejected `{Runtime}
    (allFields : Fields.t) (item : Req.t) (config : Config)
    (a1 a2 : Action) (field : string) :
  a1 <> a2 ->
  field ∈ Fields.get allFields a1 ->
  field ∈ Fields.get allFields a2 ->
  exists e,
    validateUpdateFields allFields item config = Throw e
    /\ ((forOf (checkAction allFields item config) actions = Throw e
         /\ exists action, e = ActionNotPermitted (actionName action))
        \/ (forOf (checkAction allFields item config) actions = Ok tt
            /\ exists g before after,
                 e = DuplicateField g
                 /\ fieldsListOf allFields = before ++ g :: after
                 /\ g ∈ before)).
Proof.
  intros Hne H1 H2.
  destruct (Result_unit_cases (forOf (checkAction allFields item config) actions))
    as [Hloop|[e Hloop]].
  - destruct (Result_unit_cases (dupeLoop ∅ (fieldsListOf allFields))) as [Hdup|[e Hdup]].
    + apply dupeLoop_Ok in Hdup as [Hnd _].
      exfalso. exact (two_buckets_not_NoDup allFields a1 a2 field Hne H1 H2 Hnd).
    + exists e. split.
      * rewrite (validate_after_permissions _ _ _ Hloop), Hdup. reflexivity.
      * right. split; [exact Hloop|].
        apply dupeLoop_Throw in Hdup as (g & before & after & -> & Hsplit & [Hin|Hin]).
        -- apply not_elem_of_empty in Hin. contradiction.
        -- exists g, before, after. repeat split; assumption.
  - exists e. split; [apply validate_permission_Throw; exact Hloop|].
    left. split; [exact Hloop|].
    apply permissionLoop_Throw in Hloop as (action & -> & _).
    exists action. reflexivity.
Qed.

(** A request with the field [a] in both [set] and [remove], under a
    policy that allows every field in [set] and has no rule for
    [remove]: validation fails in the permission loop, before the
    duplicate check, and the exception is not [DuplicateField]. *)
Lemma C3_counterexample :
  "a" ∈ Fields.get (extractFields reqSetRemoveA) SET
  /\ "a" ∈ Fields.get (extractFields reqSetRemoveA) REMOVE
  /\ (forall R : Runtime,
        @validateUpdateFields R (extractFields reqSetRemoveA) reqSetRemoveA
          (policy {[ "set" := ruleAllowAll ]})
        = Throw (ActionNotPermitted "remove"))
  /\ (forall g, ActionNotPermitted "remove" <> DuplicateField g).
Proof.
  split; [|split; [|split]].
  - apply list_elem_of_here.
  - apply list_elem_of_here.
  - intros R. vm_compute. reflexivity.
  - intros g. unfold ActionNotPermitted, DuplicateField. intros [=].
Qed.

Lemma C3_witness :
  exists e,
    @validateUpdateFields sampleRuntime (extractFields reqSetAddA) reqSetAddA
      (policy {[ "set" := ruleAllowAll; "add" := ruleAllowAll ]}) = Throw e
    /\ ((forOf (@checkAction sampleRuntime (extractFields reqSetAddA) reqSetAddA
                  (policy {[ "set" := ruleAllowAll; "add" := ruleAllowAll ]}))
               actions = Throw e
         /\ exists action, e = ActionNotPermitted (actionName action))
        \/ (forOf (@checkAction sampleRuntime (extractFields reqSetAddA) reqSetAddA
                     (policy {[ "set" := ruleAllowAll; "add" := ruleAllowAll ]}))
                  actions = Ok tt
            /\ exists g before after,
                 e = DuplicateField g
                 /\ fieldsListOf (extractFields reqSetAddA) = before ++ g :: after
                 /\ g ∈ before)).
Proof.
  apply (@C3_duplicate_field_rejected sampleRuntime (extractFields reqSetAddA)
           reqSetAddA (policy {[ "set" := ruleAllowAll; "add" := ruleAllowAll ]})
           SET ADD "a").
  - discriminate.
  - apply list_elem_of_here.
  - apply list_elem_of_here.
Defined.

(* ===================================================================== *)
(** ** Which actions the permission loop denies *)
(* ===================================================================== *)

(** A [set], [add] or [append] bucket with no field called "length" is
    never denied, whatever the policy: [item[action].length] is
    [undefined] there, and [undefined > 0] is false. *)
Lemma mapping_bucket_not_denied `{Runtime} (allFields : Fields.t) (item : Req.t)
    (config : Config) (action : MapAction) (o : JsObject) :
  mapping item action = Some o ->
  getProp o "length" = JUndefined ->
  checkAction allFields item config (toAction action) = Ok tt.
Proof.
  intros Hbucket Hlength. rewrite checkAction_spec.
  assert (lengthGtZero item (toAction action) = false) as ->.
  { destruct action; simpl in *; rewrite Hbucket; simpl; rewrite Hlength; reflexivity. }
  rewrite andb_false_r. reflexivity.
Qed.

(** X11.  A non-empty [remove] bucket whose rule is absent or lacks
    [allowAll: true] is denied, provided the turn of the loop for [set],
    which comes first, raises nothing. *)
Lemma remove_bucket_denied `{Runtime} (allFields : Fields.t) (item : Req.t)
    (config : Config) (fs : list string) :
  Req.remove item = Some fs ->
  fs <> [] ->
  allowsAll config REMOVE = false ->
  checkAction allFields item config SET = Ok tt ->
  validateUpdateFields allFields item config = Throw (ActionNotPermitted "remove").
Proof.
  intros Hremove Hne Hrule Hset.
  apply validate_permission_Throw. simpl. rewrite Hset. simpl.
  rewrite (checkAction_spec allFields item config REMOVE), Hrule. simpl.
  rewrite Hremove. simpl.
  destruct fs as [|f fs]; [contradiction|]. reflexivity.
Qed.

(** The example of the specification: [remove: ["status"]] under a
    policy with no rule for [remove]. *)
Lemma remove_status_denied `{Runtime} :
  validateUpdateFields (extractFields reqRemoveStatus) reqRemoveStatus
    (policy {[ "set" := ruleAllowAll ]})
  = Throw (ActionNotPermitted "remove").
Proof. vm_compute. reflexivity. Qed.

(** C1 (the code at the failing input).  The request
    [{key: {pk: "a", sk: "b"}, set: {status: "done"}}] has a non-empty
    ["set"] bucket, the policy [{actionRules: {}}] has no rule for
    ["set"], and yet validation passes and the request compiles to
    [SET #status = :status]: no "action not permitted" exception is
    thrown. *)
Theorem C1_set_bucket_not_denied `{Runtime} (tableName : string) :
  Fields.get (extractFields reqSetStatus) SET = ["status"]
  /\ rulesFor (policy ∅) (actionName SET) = None
  /\ validateUpdateFields (extractFields reqSetStatus) reqSetStatus (policy ∅) = Ok tt
  /\ exists updateObj,
       compileItem tableName reqSetStatus (policy ∅) = Ok updateObj
       /\ UpdateExpression (data updateObj) = "SET #status = :status".
Proof.
  split; [reflexivity|]. split; [reflexivity|]. split; [vm_compute; reflexivity|].
  eexists. split; [vm_compute; reflexivity | reflexivity].
Qed.

(* ===================================================================== *)
(** ** What validation can throw *)
(* ===================================================================== *)

Lemma checkAddTypes_Throw `{Runtime} (allFields : Fields.t) (item : Req.t) (e : Thrown) :
  checkAddTypes allFields item = Throw e ->
  (exists field, e = InvalidIncrementType field) \/ (exists message, e = TypeError message).
Proof.
  unfold checkAddTypes. destruct (bool_decide _); [|discriminate].
  intros Hloop. apply forOf_Throw in Hloop as (pre & field & post & _ & _ & Hbody).
  unfold readField in Hbody. destruct (Req.add item) as [o|]; simpl in Hbody.
  - unfold throwIf in Hbody. destruct (isNaN _); [|discriminate].
    injection Hbody as <-. left. exists field. reflexivity.
  - injection Hbody as <-. right. eexists. reflexivity.
Qed.

Lemma checkAppendTypes_Throw `{Runtime} (allFields : Fields.t) (item : Req.t) (e : Thrown) :
  checkAppendTypes allFields item = Throw e ->
  (exists field, e = InvalidAppendType field) \/ (exists message, e = TypeError message).
Proof.
  unfold checkAppendTypes. destruct (bool_decide _); [|discriminate].
  intros Hloop. apply forOf_Throw in Hloop as (pre & field & post & _ & _ & Hbody).
  unfold readField in Hbody. destruct (Req.append item) as [o|]; simpl in Hbody.
  - unfold throwIf in Hbody. destruct (negb _); [|discriminate].
    injection Hbody as <-. left. exists field. reflexivity.
  - injection Hbody as <-. right. eexists. reflexivity.
Qed.

(** Every exception of validation is one of five kinds; "field not
    whitelisted", "field blacklisted" and "missing mandatory field" are
    not among them. *)
Lemma validateUpdateFields_Throw `{Runtime} (allFields : Fields.t) (item : Req.t)
    (config : Config) (e : Thrown) :
  validateUpdateFields allFields item config = Throw e ->
  (exists action, e = ActionNotPermitted (actionName action))
  \/ (exists field, e = DuplicateField field)
  \/ (exists field, e = InvalidIncrementType field)
  \/ (exists field, e = InvalidAppendType field)
  \/ (exists message, e = TypeError message).
Proof.
  unfold validateUpdateFields.
  destruct (forOf (checkAction allFields item config) actions) as [[]|e1] eqn:Hloop;
    simpl.
  - destruct (dupeLoop ∅ (fieldsListOf allFields)) as [[]|e2] eqn:Hdup; simpl.
    + destruct (checkAddTypes allFields item) as [[]|e3] eqn:Hadd; simpl.
      * intros Happend. apply checkAppendTypes_Throw in Happend as [Hk|Hk]; auto 6.
      * intros [= <-]. apply checkAddTypes_Throw in Hadd as [Hk|Hk]; auto 6.
    + intros [= <-].
      apply dupeLoop_Throw in Hdup as (g & _ & _ & -> & _). right; left. eauto.
  - intros [= <-]. apply permissionLoop_Throw in Hloop as (action & -> & _).
    left. eauto.
Qed.

Lemma validateUpdateFields_never_whitelist `{Runtime} (allFields : Fields.t)
    (item : Req.t) (config : Config) (field action : string) :
  validateUpdateFields allFields item config <> Throw (FieldNotWhitelisted field action).
Proof.
  intros Hthrow.
  apply validateUpdateFields_Throw in Hthrow
    as [[a Hk]|[[f Hk]|[[f Hk]|[[f Hk]|[m Hk]]]]]; discriminate Hk.
Qed.

(** C5 (the code at the failing inputs).  Under a rule with a whitelist
    and no [allowAll], a field outside the whitelist is not rejected as
    "not whitelisted": in the ["set"] bucket it passes validation, and in
    the ["remove"] bucket the whole action is denied instead. *)
Theorem C5_whitelist_not_enforced `{Runtime} :
  includes ["status"] "secret" = false
  /\ validateUpdateFields (extractFields reqSetSecret) reqSetSecret
       (policy {[ "set" := ruleWhitelist ["status"] ]}) = Ok tt
  /\ validateUpdateFields (extractFields reqRemoveSecret) reqRemoveSecret
       (policy {[ "remove" := ruleWhitelist ["status"] ]})
     = Throw (ActionNotPermitted "remove").
Proof.
  split; [vm_compute; reflexivity|].
  split; vm_compute; reflexivity.
Qed.

(* ===================================================================== *)
(** ** The type check of the increments *)
(* ===================================================================== *)


Lemma getProp_NoDup (o : JsObject) (k : string) (v : JsValue) :
  NoDup (Object_keys o) -> (k, v) ∈ o -> getProp o k = v.
Proof.
  induction o as [|[k' v'] rest IH]; simpl; intros Hnd Hin.
  - inversion Hin.
  - apply NoDup_cons in Hnd as [Hfresh Hnd].
    apply elem_of_cons in Hin as [Heq|Hin].
    + injection Heq as <- <-. destruct (decide (k = k)); [reflexivity | contradiction].
    + destruct (decide (k' = k)) as [->|Hne]; [|apply IH; assumption].
      exfalso. apply Hfresh. change k with (fst (k, v)).
      apply list_elem_of_fmap_2. exact Hin.
Qed.

(** A number never converts to [NaN]. *)
Lemma isNaN_number `{Runtime} (n : Z) : isNaN (JNum n) = false.
Proof. reflexivity. Qed.

Section IncrementCheck.
Context `{Runtime}.
Variables (item : Req.t) (o : JsObject).
Hypothesis Hadd : Req.add item = Some o.




End IncrementCheck.




(** The values [null], ["5"] (for a conversion that reads it as a
    number), [true] and [[]] are not numbers, yet none converts to
    [NaN]: the check of the increments lets them through. *)
Lemma increment_null_passes `{Runtime} :
  validateUpdateFields (extractFields reqAddNull) reqAddNull
    (policy {[ "add" := ruleAllowAll ]}) = Ok tt.
Proof. vm_compute. reflexivity. Qed.

Lemma isNaN_not_numbers `{Runtime} :
  isNaN JNull = false /\ isNaN (JBool true) = false /\ isNaN (JArr []) = false
  /\ (forall s n, StringToNumber s = Some n -> isNaN (JStr s) = false).
Proof.
  repeat split. intros s n Hs. unfold isNaN. simpl. rewrite Hs. reflexivity.
Qed.

(* ===================================================================== *)
(** ** Properties and deletions of objects *)
(* ===================================================================== *)

Lemma deleteProp_keys (o : JsObject) (field k : string) :
  k ∈ Object_keys (deleteProp o field) <-> k ∈ Object_keys o /\ k <> field.
Proof.
  unfold Object_keys, deleteProp. rewrite !list_elem_of_fmap. split.
  - intros ([k' v] & -> & Hin). apply list_elem_of_filter in Hin as [Hne Hin].
    split; [|exact Hne]. exists (k', v). split; [reflexivity | exact Hin].
  - intros [([k' v] & -> & Hin) Hne]. exists (k', v). split; [reflexivity|].
    apply list_elem_of_filter. split; assumption.
Qed.

Lemma setProp_fresh (o : JsObject) (field : string) (value : JsValue) :
  field ∉ Object_keys o -> setProp o field value = o ++ [(field, value)].
Proof.
  induction o as [|[k v] rest IH]; simpl; intros Hfresh; [reflexivity|].
  apply not_elem_of_cons in Hfresh as [Hne Hfresh].
  destruct (decide (k = field)) as [->|_]; [contradiction|].
  rewrite IH by exact Hfresh. reflexivity.
Qed.

Lemma setProp_keys (o : JsObject) (field k : string) (value : JsValue) :
  k ∈ Object_keys (setProp o field value) <-> k ∈ Object_keys o \/ k = field.
Proof.
  induction o as [|[k' v] rest IH]; simpl.
  - rewrite list_elem_of_singleton. split; [right; assumption|].
    intros [Hin|Heq]; [inversion Hin | exact Heq].
  - destruct (decide (k' = field)) as [->|Hne]; simpl.
    + rewrite !elem_of_cons. tauto.
    + rewrite !elem_of_cons, IH. tauto.
Qed.

Lemma filter_key_absent (o : JsObject) (field : string) :
  field ∉ Object_keys o -> filter (fun kv : string * JsValue => fst kv = field) o = [].
Proof.
  induction o as [|[k v] rest IH]; simpl; intros Hfresh; [reflexivity|].
  apply not_elem_of_cons in Hfresh as [Hne Hfresh].
  rewrite filter_cons_False by (simpl; congruence). apply IH. exact Hfresh.
Qed.

Lemma filter_key_setProp_other (o : JsObject) (field g : string) (value : JsValue) :
  g <> field ->
  filter (fun kv : string * JsValue => fst kv = g) (setProp o field value)
  = filter (fun kv : string * JsValue => fst kv = g) o.
Proof.
  intros Hne. induction o as [|[k v] rest IH]; simpl.
  - rewrite filter_cons_False by (simpl; congruence). reflexivity.
  - destruct (decide (k = field)) as [->|Hk].
    + rewrite !filter_cons_False by (simpl; congruence). reflexivity.
    + rewrite !filter_cons, IH. reflexivity.
Qed.

Lemma filter_key_deleteProp_other (o : JsObject) (field g : string) :
  g <> field ->
  filter (fun kv : string * JsValue => fst kv = g) (deleteProp o field)
  = filter (fun kv : string * JsValue => fst kv = g) o.
Proof.
  intros Hne. unfold deleteProp. induction o as [|[k v] rest IH]; [reflexivity|].
  destruct (decide (k = field)) as [->|Hk].
  - rewrite (filter_cons_False (fun kv => fst kv ≠ field)) by (simpl; tauto).
    rewrite (filter_cons_False (fun kv => fst kv = g)) by (simpl; congruence).
    exact IH.
  - rewrite (filter_cons_True (fun kv => fst kv ≠ field)) by (simpl; congruence).
    rewrite !(filter_cons (fun kv => fst kv = g)), IH. reflexivity.
Qed.

(** After [delete o[field]; o[field] = value] the object has the field
    exactly once, with that value. *)
Lemma filter_key_replaced (o : JsObject) (field : string) (value : JsValue) :
  filter (fun kv : string * JsValue => fst kv = field)
         (setProp (deleteProp o field) field value)
  = [(field, value)].
Proof.
  assert (field ∉ Object_keys (deleteProp o field)) as Hfresh.
  { rewrite deleteProp_keys. tauto. }
  rewrite (setProp_fresh _ _ _ Hfresh), filter_app, (filter_key_absent _ _ Hfresh).
  simpl. rewrite filter_cons_True by reflexivity. reflexivity.
Qed.

Lemma filter_idemp {A : Type} (P : A -> Prop) `{forall x, Decision (P x)} (xs : list A) :
  filter P (filter P xs) = filter P xs.
Proof.
  induction xs as [|x rest IH]; [reflexivity|].
  rewrite (filter_cons P x rest). destruct (decide (P x)) as [Hx|Hx]; [|exact IH].
  rewrite filter_cons_True by exact Hx. rewrite IH. reflexivity.
Qed.

(* ===================================================================== *)
(** ** The automatic fields *)
(* ===================================================================== *)

(** The three turns of the loop of [clearRequestFieldFromAllActions]
    amount to one deletion per bucket. *)
Lemma clearRequestFieldFromAllActions_spec (field : string) (item : Req.t) :
  clearRequestFieldFromAllActions field item =
  {| Req.key := Req.key item;
     Req.set := (fun o => deleteProp o field) <$> Req.set item;
     Req.remove := filter (fun f => f ≠ field) <$> Req.remove item;
     Req.add := (fun o => deleteProp o field) <$> Req.add item;
     Req.append := (fun o => deleteProp o field) <$> Req.append item |}.
Proof.
  destruct item as [k [s|] [r|] [a|] [p|]];
    unfold clearRequestFieldFromAllActions, clearStep; simpl;
    rewrite ?filter_idemp; reflexivity.
Qed.

(** The only part of the configuration the automatic fields touch is a
    whitelist. *)
Lemma pushWhitelist_flags (config : Config) (action field : string) :
  autoTimestamp (pushWhitelist config action field) = autoTimestamp config
  /\ autoVersion (pushWhitelist config action field) = autoVersion config
  /\ failOnError (pushWhitelist config action field) = failOnError config
  /\ (is_Some (actionRules (pushWhitelist config action field))
      <-> is_Some (actionRules config)).
Proof.
  unfold pushWhitelist. destruct (actionRules config) as [rules|] eqn:Hrules;
    [|rewrite Hrules; tauto].
  destruct (rules !! action) as [rule|]; [|rewrite Hrules; tauto].
  destruct (Rule.whitelist rule); simpl; [|rewrite Hrules; tauto].
  repeat split; eauto.
Qed.

Section Stamp.
Variables (field : string) (value : JsValue) (action : MapAction).

Lemma stamped_mapping (item : Req.t) (config : Config) (m : MapAction) :
  mapping (stamped field value action item config) m =
  if decide (m = action)
  then Some (setProp (deleteProp (default [] (mapping item m)) field) field value)
  else (fun o => deleteProp o field) <$> mapping item m.
Proof.
  unfold stamped. rewrite clearRequestFieldFromAllActions_spec.
  destruct item as [k [s|] [r|] [a|] [p|]], action, m; reflexivity.
Qed.

Lemma stamped_remove (item : Req.t) (config : Config) :
  Req.remove (stamped field value action item config)
  = filter (fun f => f ≠ field) <$> Req.remove item.
Proof.
  unfold stamped. rewrite clearRequestFieldFromAllActions_spec.
  destruct item as [k [s|] [r|] [a|] [p|]], action; reflexivity.
Qed.

(** The field is then in the bucket of [action], once, and nowhere
    else. *)
Lemma stamped_onlyIn (item : Req.t) (config : Config) :
  onlyIn field value action (stamped field value action item config).
Proof.
  unfold onlyIn. split; [|split].
  - rewrite stamped_mapping. destruct (decide (action = action)); [|contradiction].
    eexists. split; [reflexivity|]. apply filter_key_replaced.
  - rewrite stamped_remove. destruct (Req.remove item) as [r|]; simpl.
    + rewrite list_elem_of_filter. tauto.
    + apply not_elem_of_nil.
  - intros other Hother. rewrite stamped_mapping.
    destruct (decide (other = action)); [contradiction|].
    destruct (mapping item other) as [o|]; simpl.
    + rewrite deleteProp_keys. tauto.
    + apply not_elem_of_nil.
Qed.

(** A different field that was in one bucket only stays so. *)
Lemma stamped_preserves (g : string) (w : JsValue) (b : MapAction)
    (item : Req.t) (config : Config) :
  g <> field ->
  onlyIn g w b item ->
  onlyIn g w b (stamped field value action item config).
Proof.
  intros Hne ((o & Ho & Honce) & Hremove & Hothers). unfold onlyIn. split; [|split].
  - rewrite stamped_mapping, Ho. simpl.
    destruct (decide (b = action)); eexists; (split; [reflexivity|]).
    + rewrite filter_key_setProp_other, filter_key_deleteProp_other by exact Hne.
      exact Honce.
    + rewrite filter_key_deleteProp_other by exact Hne. exact Honce.
  - rewrite stamped_remove. destruct (Req.remove item) as [r|]; simpl in *.
    + rewrite list_elem_of_filter. tauto.
    + exact Hremove.
  - intros other Hother. specialize (Hothers other Hother).
    rewrite stamped_mapping. destruct (decide (other = action)); simpl.
    + rewrite setProp_keys, deleteProp_keys.
      destruct (mapping item other); simpl in *; tauto.
    + destruct (mapping item other) as [o'|]; simpl in *; [|exact Hothers].
      rewrite deleteProp_keys. tauto.
Qed.

(** X12.  Clearing an automatic field from a request and including it
    again, as the handler does for every item, is idempotent: doing it
    twice is doing it once. *)
Lemma stamped_idempotent (item : Req.t) (config config' : Config) :
  stamped field value action (stamped field value action item config) config'
  = stamped field value action item config.
Proof.
  assert (forall o, deleteProp (setProp (deleteProp o field) field value) field
                    = deleteProp o field) as Hdel.
  { intros o. rewrite setProp_fresh by (rewrite deleteProp_keys; tauto).
    unfold deleteProp. rewrite filter_app, filter_idemp.
    rewrite filter_cons_False by (simpl; tauto). apply app_nil_r. }
  assert (forall o, deleteProp (deleteProp o field) field = deleteProp o field) as Hdel2.
  { intros o. unfold deleteProp. apply filter_idemp. }
  assert (deleteProp [(field, value)] field = []) as Hdel3.
  { unfold deleteProp. rewrite filter_cons_False by (simpl; tauto). reflexivity. }
  unfold stamped. rewrite !clearRequestFieldFromAllActions_spec.
  destruct item as [k [s|] [r|] [a|] [p|]], action; simpl;
    unfold includeFieldInAction; simpl;
    rewrite ?Hdel, ?Hdel2, ?Hdel3, ?filter_idemp; reflexivity.
Qed.

(** [autoField] treats the items one by one, in order. *)
Lemma autoField_cons (item : Req.t) (rest : list Req.t) (config : Config) :
  autoField field value action (item :: rest) config =
  let config1 := pushWhitelist config (actionName (toAction action)) field in
  (stamped field value action item config
     :: fst (autoField field value action rest config1),
   snd (autoField field value action rest config1)).
Proof.
  simpl. destruct (autoField field value action rest _) as [rest' config'].
  reflexivity.
Qed.

Lemma autoField_Forall (P Q : Req.t -> Prop) :
  (forall item config, P item -> Q (stamped field value action item config)) ->
  forall updateList config,
    Forall P updateList ->
    Forall Q (fst (autoField field value action updateList config)).
Proof.
  intros Hstep updateList.
  induction updateList as [|item rest IH]; intros config Hall; [constructor|].
  inversion Hall as [|? ? Hitem Hrest]; subst.
  rewrite autoField_cons. simpl. constructor.
  - apply Hstep. exact Hitem.
  - apply IH. exact Hrest.
Qed.

Lemma autoField_length (updateList : list Req.t) (config : Config) :
  length (fst (autoField field value action updateList config)) = length updateList.
Proof.
  revert config. induction updateList as [|item rest IH]; intros config;
    [reflexivity|].
  rewrite autoField_cons. simpl. rewrite IH. reflexivity.
Qed.

Lemma autoField_flags (updateList : list Req.t) (config : Config) :
  let config' := snd (autoField field value action updateList config) in
  autoTimestamp config' = autoTimestamp config
  /\ autoVersion config' = autoVersion config
  /\ failOnError config' = failOnError config
  /\ (is_Some (actionRules config') <-> is_Some (actionRules config)).
Proof.
  revert config. induction updateList as [|item rest IH]; intros config;
    [simpl; tauto|].
  rewrite autoField_cons. simpl.
  specialize (IH (pushWhitelist config (actionName (toAction action)) field)).
  destruct (pushWhitelist_flags config (actionName (toAction action)) field)
    as (Ht & Hv & Hf & Hr).
  simpl in IH. destruct IH as (Ht' & Hv' & Hf' & Hr').
  rewrite Ht', Hv', Hf', Hr'. tauto.
Qed.
End Stamp.

Lemma autoFields_flags (now : string) (updateList : list Req.t) (config : Config) :
  let config' := snd (autoFields now updateList config) in
  failOnError config' = failOnError config
  /\ (is_Some (actionRules config') <-> is_Some (actionRules config)).
Proof.
  unfold autoFields.
  destruct (autoTimestamp config) eqn:Hts.
  - pose proof (autoField_flags "lastUpdated" (JStr now) MSET updateList config)
      as (_ & Hv & Hf & Hr).
    destruct (autoField "lastUpdated" (JStr now) MSET updateList config)
      as [list1 config1].
    simpl in *. destruct (autoVersion config1).
    + pose proof (autoField_flags "version" (JNum 1) MADD list1 config1)
        as (_ & _ & Hf' & Hr').
      simpl in *. rewrite Hf', Hr'. tauto.
    + simpl. tauto.
  - destruct (autoVersion config).
    + pose proof (autoField_flags "version" (JNum 1) MADD updateList config)
        as (_ & _ & Hf' & Hr').
      simpl in *. tauto.
    + simpl. tauto.
Qed.

Lemma autoFields_length (now : string) (updateList : list Req.t) (config : Config) :
  length (fst (autoFields now updateList config)) = length updateList.
Proof.
  unfold autoFields. destruct (autoTimestamp config).
  - pose proof (autoField_length "lastUpdated" (JStr now) MSET updateList config) as Hlen.
    destruct (autoField "lastUpdated" (JStr now) MSET updateList config)
      as [list1 config1].
    simpl in Hlen. destruct (autoVersion config1); [|exact Hlen].
    rewrite autoField_length. exact Hlen.
  - destruct (autoVersion config); [|reflexivity]. apply autoField_length.
Qed.

(** After the two passes every request has each automatic field once, in
    its own bucket. *)
Lemma autoFields_onlyIn (now : string) (updateList : list Req.t) (config : Config) :
  Forall (fun item =>
            (autoTimestamp config = true -> onlyIn "lastUpdated" (JStr now) MSET item)
            /\ (autoVersion config = true -> onlyIn "version" (JNum 1) MADD item))
         (fst (autoFields now updateList config)).
Proof.
  unfold autoFields. destruct (autoTimestamp config) eqn:Hts.
  - pose proof (autoField_Forall "lastUpdated" (JStr now) MSET (fun _ => True)
                  (onlyIn "lastUpdated" (JStr now) MSET)
                  (fun item config _ => stamped_onlyIn _ _ _ item config)
                  updateList config) as Hstamp.
    pose proof (autoField_flags "lastUpdated" (JStr now) MSET updateList config)
      as (_ & Hv & _).
    destruct (autoField "lastUpdated" (JStr now) MSET updateList config)
      as [list1 config1].
    simpl in *. rewrite Hv.
    assert (Forall (onlyIn "lastUpdated" (JStr now) MSET) list1) as Hlist1.
    { apply Hstamp. apply Forall_forall. intros; exact I. }
    destruct (autoVersion config) eqn:Hver.
    + apply (autoField_Forall "version" (JNum 1) MADD
               (onlyIn "lastUpdated" (JStr now) MSET)); [|exact Hlist1].
      intros item cfg Hitem. split; intros _.
      * apply stamped_preserves; [discriminate | exact Hitem].
      * apply stamped_onlyIn.
    + simpl. eapply Forall_impl; [exact Hlist1|].
      intros item Hitem. split; [intros _; exact Hitem | discriminate].
  - destruct (autoVersion config) eqn:Hver.
    + apply (autoField_Forall "version" (JNum 1) MADD (fun _ => True)).
      * intros item cfg _. split; [discriminate|]. intros _. apply stamped_onlyIn.
      * apply Forall_forall. intros; exact I.
    + simpl. apply Forall_forall. intros item _. split; discriminate.
Qed.

(* ===================================================================== *)
(** ** The handler as a whole *)
(* ===================================================================== *)

Section HandlerFacts.
Context `{Runtime}.

(** With [actionRules] present the handler adds the automatic fields to
    the whole list and then runs the loop on the result. *)
Lemma quickApiUpdateHandler_unfold (now tableName : string)
    (updateList : list Req.t) (config : Config) :
  is_Some (actionRules config) ->
  let prepared := autoFields now updateList config in
  let looped := compileLoop tableName (snd prepared) (fst prepared) [] [] in
  quickApiUpdateHandler now tableName updateList config =
  {| returned := fst looped; requestsAfter := fst prepared;
     configAfter := snd prepared; logged := snd looped |}.
Proof.
  intros Hrules. unfold quickApiUpdateHandler, validateConfig, throwIf.
  rewrite bool_decide_eq_true_2 by exact Hrules. simpl.
  destruct (autoFields now updateList config) as [updateList' config'].
  simpl. destruct (compileLoop tableName config' updateList' [] []). reflexivity.
Qed.

(** Every update object carries the action and the condition. *)
Lemma compileItem_condition (tableName : string) (item : Req.t) (config : Config)
    (updateObj : UpdateObj) :
  compileItem tableName item config = Ok updateObj ->
  action updateObj = "Update"
  /\ ConditionExpression (data updateObj) = "attribute_exists(pk)".
Proof.
  unfold compileItem.
  destruct (throwIf _ _); simpl; [|discriminate].
  destruct (validateUpdateFields _ _ _); simpl; [|discriminate].
  destruct (updateExpressionBuilder _ _); simpl; [|discriminate].
  intros [= <-]. split; reflexivity.
Qed.

(** What holds of every compiled item holds of every item the loop
    returns. *)
Lemma compileLoop_Forall (P : UpdateObj -> Prop) (tableName : string)
    (config : Config) :
  (forall item updateObj,
      compileItem tableName item config = Ok updateObj -> P updateObj) ->
  forall updateList updateItems errors result,
    Forall P updateItems ->
    fst (compileLoop tableName config updateList updateItems errors) = Ok result ->
    Forall P result.
Proof.
  intros Hitem updateList.
  induction updateList as [|item rest IH]; intros updateItems errors result Hacc; simpl.
  - intros [= <-]. exact Hacc.
  - destruct (compileItem tableName item config) as [updateObj|e] eqn:Hcompile.
    + apply IH. apply Forall_app. split; [exact Hacc|].
      constructor; [|constructor]. exact (Hitem item updateObj Hcompile).
    + destruct (failOnError config); simpl; [discriminate|].
      apply IH. exact Hacc.
Qed.

(** Without [failOnError] the loop returns the update objects of the
    items that compile, in the order of the list, and logs the errors of
    the others. *)
Lemma compileLoop_collect (tableName : string) (config : Config)
    (updateList : list Req.t) (updateItems : list UpdateObj) (errors : list Thrown) :
  failOnError config = false ->
  compileLoop tableName config updateList updateItems errors =
  (Ok (updateItems
         ++ omap (fun item => match compileItem tableName item config with
                              | Ok updateObj => Some updateObj
                              | Throw _ => None
                              end) updateList),
   errors
     ++ omap (fun item => match compileItem tableName item config with
                          | Ok _ => None
                          | Throw e => Some e
                          end) updateList).
Proof.
  intros Hmode. revert updateItems errors.
  induction updateList as [|item rest IH]; intros updateItems errors; simpl.
  - rewrite !app_nil_r. reflexivity.
  - destruct (compileItem tableName item config) as [updateObj|e].
    + rewrite IH, <- app_assoc. reflexivity.
    + rewrite Hmode, IH, <- app_assoc. reflexivity.
Qed.

(** With [failOnError] the loop stops at the first item that does not
    compile and the call throws its error. *)
Lemma compileLoop_fail_fast (tableName : string) (config : Config)
    (before after : list Req.t) (item : Req.t) (e : Thrown)
    (updateItems : list UpdateObj) (errors : list Thrown) :
  failOnError config = true ->
  Forall (fun item' => exists updateObj,
              compileItem tableName item' config = Ok updateObj) before ->
  compileItem tableName item config = Throw e ->
  compileLoop tableName config (before ++ item :: after) updateItems errors
  = (Throw e, errors).
Proof.
  intros Hmode Hbefore Hitem. revert updateItems.
  induction Hbefore as [|item' before' [updateObj Hok] _ IH]; intros updateItems; simpl.
  - rewrite Hitem, Hmode. reflexivity.
  - rewrite Hok. apply IH.
Qed.
End HandlerFacts.

(* ===================================================================== *)
(** ** The claims about the handler *)
(* ===================================================================== *)

(** C2.  A batch of three requests, of which the second alone does not
    compile once the automatic fields are added.  With [failOnError] the
    call throws the error of the second request and returns no update
    object; without it the call returns exactly the update objects of the
    first and of the third request, in that order, and the error is only
    logged. *)
Theorem C2_batch_of_three `{Runtime} (now tableName : string) (config config' : Config)
    (r1 r2 r3 p1 p2 p3 : Req.t) (u1 u3 : UpdateObj) (e : Thrown) :
  is_Some (actionRules config) ->
  autoFields now [r1; r2; r3] config = ([p1; p2; p3], config') ->
  compileItem tableName p1 config' = Ok u1 ->
  compileItem tableName p2 config' = Throw e ->
  compileItem tableName p3 config' = Ok u3 ->
  (failOnError config = true ->
   returned (quickApiUpdateHandler now tableName [r1; r2; r3] config) = Throw e)
  /\ (failOnError config = false ->
      returned (quickApiUpdateHandler now tableName [r1; r2; r3] config) = Ok [u1; u3]
      /\ logged (quickApiUpdateHandler now tableName [r1; r2; r3] config) = [e]).
Proof.
  intros Hrules Hauto H1 H2 H3.
  rewrite (quickApiUpdateHandler_unfold now tableName _ config Hrules).
  pose proof (autoFields_flags now [r1; r2; r3] config) as [Hmode _].
  rewrite Hauto in *. simpl in *. rewrite H1, H2, Hmode.
  split; intros ->; simpl; [reflexivity|].
  rewrite H3. split; reflexivity.
Qed.

Lemma C2_witness :
  returned (@quickApiUpdateHandler sampleRuntime "now" "t"
              [reqSetStatus; reqRemoveStatus; reqNoBuckets]
              (policyFailFast {[ "set" := ruleAllowAll ]}))
  = Throw (ActionNotPermitted "remove")
  /\ exists u1 u3,
       @compileItem sampleRuntime "t" reqSetStatus
         (policy {[ "set" := ruleAllowAll ]}) = Ok u1
       /\ @compileItem sampleRuntime "t" reqNoBuckets
            (policy {[ "set" := ruleAllowAll ]}) = Ok u3
       /\ returned (@quickApiUpdateHandler sampleRuntime "now" "t"
                      [reqSetStatus; reqRemoveStatus; reqNoBuckets]
                      (policy {[ "set" := ruleAllowAll ]}))
          = Ok [u1; u3].
Proof.
  split.
  - refine (proj1 (@C2_batch_of_three sampleRuntime "now" "t"
                     (policyFailFast {[ "set" := ruleAllowAll ]})
                     (policyFailFast {[ "set" := ruleAllowAll ]})
                     reqSetStatus reqRemoveStatus reqNoBuckets
                     reqSetStatus reqRemoveStatus reqNoBuckets
                     _ _ (ActionNotPermitted "remove") _ eq_refl _ _ _) eq_refl).
    + eexists. reflexivity.
    + vm_compute. reflexivity.
    + vm_compute. reflexivity.
    + vm_compute. reflexivity.
  - eexists. eexists. split; [vm_compute; reflexivity|].
    split; [vm_compute; reflexivity|].
    refine (proj1 (proj2 (@C2_batch_of_three sampleRuntime "now" "t"
                            (policy {[ "set" := ruleAllowAll ]})
                            (policy {[ "set" := ruleAllowAll ]})
                            reqSetStatus reqRemoveStatus reqNoBuckets
                            reqSetStatus reqRemoveStatus reqNoBuckets
                            _ _ (ActionNotPermitted "remove") _ eq_refl _ _ _)
                     eq_refl)).
    + eexists. reflexivity.
    + vm_compute. reflexivity.
    + vm_compute. reflexivity.
    + vm_compute. reflexivity.
Defined.

(** C6.  When [actionRules] is present, the requests the loop validates
    and compiles are the requests of the batch after the automatic
    fields were added, one for one.  With [autoTimestamp] each of them
    has the field [lastUpdated] exactly once, in ["set"], with the
    timestamp of the call, and in no other bucket; with [autoVersion]
    each has [version] exactly once, in ["add"], with the value [1], and
    in no other bucket. *)
Theorem C6_auto_fields_replace `{Runtime} (now tableName : string)
    (updateList : list Req.t) (config : Config) :
  is_Some (actionRules config) ->
  length (requestsAfter (quickApiUpdateHandler now tableName updateList config))
  = length updateList
  /\ Forall (fun item =>
               (autoTimestamp config = true ->
                onlyIn "lastUpdated" (JStr now) MSET item)
               /\ (autoVersion config = true ->
                   onlyIn "version" (JNum 1) MADD item))
            (requestsAfter (quickApiUpdateHandler now tableName updateList config))
  /\ (returned (quickApiUpdateHandler now tableName updateList config),
      logged (quickApiUpdateHandler now tableName updateList config))
     = compileLoop tableName
         (configAfter (quickApiUpdateHandler now tableName updateList config))
         (requestsAfter (quickApiUpdateHandler now tableName updateList config))
         [] [].
Proof.
  intros Hrules.
  rewrite (quickApiUpdateHandler_unfold now tableName updateList config Hrules).
  simpl. split; [apply autoFields_length|]. split; [apply autoFields_onlyIn|].
  destruct (compileLoop _ _ _ _ _). reflexivity.
Qed.

Lemma C6_witness :
  Forall (fun item =>
            onlyIn "lastUpdated" (JStr "2026-01-01T00:00:00.000Z") MSET item
            /\ onlyIn "version" (JNum 1) MADD item)
         (requestsAfter (@quickApiUpdateHandler sampleRuntime
                           "2026-01-01T00:00:00.000Z" "t" [reqStale; reqNoBuckets]
                           (policyAuto {[ "set" := ruleAllowAll; "add" := ruleAllowAll ]}))).
Proof.
  eapply Forall_impl.
  - refine (proj1 (proj2 (@C6_auto_fields_replace sampleRuntime
                            "2026-01-01T00:00:00.000Z" "t" [reqStale; reqNoBuckets]
                            (policyAuto {[ "set" := ruleAllowAll; "add" := ruleAllowAll ]})
                            _))).
    eexists. reflexivity.
  - intros item [Hts Hver]. split; [apply Hts | apply Hver]; reflexivity.
Defined.

(** C7.  A configuration without [actionRules] makes the call throw the
    configuration error at once, whatever [failOnError] says: no request
    and no part of the configuration is changed, nothing is compiled and
    nothing is logged. *)
Theorem C7_missing_actionRules_fatal `{Runtime} (now tableName : string)
    (updateList : list Req.t) (config : Config) :
  actionRules config = None ->
  quickApiUpdateHandler now tableName updateList config =
  {| returned := Throw MalformedConfiguration; requestsAfter := updateList;
     configAfter := config; logged := [] |}.
Proof.
  intros Hrules. unfold quickApiUpdateHandler, validateConfig, throwIf.
  rewrite Hrules. rewrite bool_decide_eq_false_2 by (intros [x Hx]; discriminate).
  reflexivity.
Qed.

Lemma C7_witness :
  @quickApiUpdateHandler sampleRuntime "now" "t" [reqStale; reqSetStatus] policyNoRules =
  {| returned := Throw MalformedConfiguration;
     requestsAfter := [reqStale; reqSetStatus];
     configAfter := policyNoRules; logged := [] |}.
Proof.
  apply (@C7_missing_actionRules_fatal sampleRuntime "now" "t"
           [reqStale; reqSetStatus] policyNoRules).
  reflexivity.
Defined.

(** C8.  The request [{key: {pk: "a", sk: "b"}, set: {status: "done"}}]
    under the policy [{actionRules: {set: {allowAll: true}}}] compiles to
    one update object: its expression is [SET #status = :status], its
    names are [{"#status": "status"}] and its values bind [:status] to
    [marshall("done", ..)]. *)
Theorem C8_assign_status_example `{Runtime} (now tableName : string) :
  returned (quickApiUpdateHandler now tableName [reqSetStatus]
              (policy {[ "set" := ruleAllowAll ]}))
  = Ok [ {| action := "Update";
            data := {| TableName := tableName;
                       Key := marshall noOptions (JObj keyAB);
                       UpdateExpression := "SET #status = :status";
                       ExpressionAttributeNames := {[ "#status" := "status" ]};
                       ExpressionAttributeValues :=
                         {[ ":status" := marshall setOptions (JStr "done") ]};
                       ConditionExpression := "attribute_exists(pk)" |} |} ].
Proof. vm_compute. reflexivity. Qed.

(** C9.  Every update object the handler returns has the condition
    expression [attribute_exists(pk)] (and the action [Update]), for
    every batch and every configuration. *)
Theorem C9_condition_always_present `{Runtime} (now tableName : string)
    (updateList : list Req.t) (config : Config) (result : list UpdateObj) :
  returned (quickApiUpdateHandler now tableName updateList config) = Ok result ->
  Forall (fun updateObj =>
            action updateObj = "Update"
            /\ ConditionExpression (data updateObj) = "attribute_exists(pk)")
         result.
Proof.
  destruct (actionRules config) as [rules|] eqn:Hrules.
  - rewrite (quickApiUpdateHandler_unfold now tableName updateList config)
      by (rewrite Hrules; eexists; reflexivity).
    simpl. apply compileLoop_Forall; [|constructor].
    intros item updateObj. apply compileItem_condition.
  - unfold quickApiUpdateHandler, validateConfig, throwIf. rewrite Hrules.
    rewrite bool_decide_eq_false_2 by (intros [x Hx]; discriminate).
    discriminate.
Qed.

Lemma C9_witness :
  exists result,
    returned (@quickApiUpdateHandler sampleRuntime "now" "t"
                [reqSetStatus; reqRemoveStatus; reqNoBuckets]
                (policy {[ "set" := ruleAllowAll ]})) = Ok result
    /\ length result = 2%nat
    /\ Forall (fun updateObj =>
                 action updateObj = "Update"
                 /\ ConditionExpression (data updateObj) = "attribute_exists(pk)")
              result.
Proof.
  eexists. split; [vm_compute; reflexivity|]. split; [reflexivity|].
  apply (@C9_condition_always_present sampleRuntime "now" "t"
           [reqSetStatus; reqRemoveStatus; reqNoBuckets]
           (policy {[ "set" := ruleAllowAll ]})).
  vm_compute. reflexivity.
Defined.



(* ===================================================================== *)
(** ** What the policy can change *)
(* ===================================================================== *)

Section PolicyDependence.
Context `{Runtime}.

Lemma checkAction_allowsAll (allFields : Fields.t) (item : Req.t)
    (config1 config2 : Config) (action : Action) :
  allowsAll config1 action = allowsAll config2 action ->
  checkAction allFields item config1 action = checkAction allFields item config2 action.
Proof. intros Hsame. rewrite !checkAction_spec, Hsame. reflexivity. Qed.

Lemma compileItem_allowsAll (tableName : string) (item : Req.t)
    (config1 config2 : Config) :
  (forall action, allowsAll config1 action = allowsAll config2 action) ->
  compileItem tableName item config1 = compileItem tableName item config2.
Proof.
  intros Hsame. unfold compileItem, validateUpdateFields. simpl.
  rewrite !(checkAction_allowsAll _ _ config1 config2) by apply Hsame.
  reflexivity.
Qed.
End PolicyDependence.

(** X1.  The outcome of validation depends on the policy only through
    the set of actions whose rule has [allowAll: true]: two policies that
    agree on it give the same result on every request, whatever their
    whitelists, blacklists and mandatory fields are. *)
Theorem validation_depends_on_allowAll_only `{Runtime} (allFields : Fields.t)
    (item : Req.t) (config1 config2 : Config) :
  (forall action, allowsAll config1 action = allowsAll config2 action) ->
  validateUpdateFields allFields item config1
  = validateUpdateFields allFields item config2.
Proof.
  intros Hsame. unfold validateUpdateFields. simpl.
  rewrite !(checkAction_allowsAll _ _ config1 config2) by apply Hsame.
  reflexivity.
Qed.

Lemma validation_depends_on_allowAll_only_witness :
  @validateUpdateFields sampleRuntime (extractFields reqSetSecret) reqSetSecret
    (policy {[ "set" := ruleWhitelist ["status"] ]})
  = @validateUpdateFields sampleRuntime (extractFields reqSetSecret) reqSetSecret
      (policy ∅).
Proof.
  apply (@validation_depends_on_allowAll_only sampleRuntime).
  intros [| | |]; reflexivity.
Defined.

(* ===================================================================== *)
(** ** The handler, item by item *)
(* ===================================================================== *)

(** The whitelist a pass extends does not change which actions have
    [allowAll: true]. *)
Lemma pushWhitelist_allowsAll (config : Config) (name field : string) (action : Action) :
  allowsAll (pushWhitelist config name field) action = allowsAll config action.
Proof.
  unfold allowsAll, rulesFor, pushWhitelist.
  destruct (actionRules config) as [rules|] eqn:Hrules; [|rewrite Hrules; reflexivity].
  destruct (rules !! name) as [rule|] eqn:Hrule; [|rewrite Hrules; reflexivity].
  destruct (Rule.whitelist rule); [|rewrite Hrules; reflexivity].
  simpl. destruct (decide (name = actionName action)) as [->|Hne].
  - rewrite lookup_insert_eq, Hrule. reflexivity.
  - rewrite lookup_insert_ne by exact Hne. reflexivity.
Qed.

Lemma stamped_config (field : string) (value : JsValue) (action : MapAction)
    (item : Req.t) (config config' : Config) :
  stamped field value action item config = stamped field value action item config'.
Proof. reflexivity. Qed.

Lemma autoField_map (field : string) (value : JsValue) (action : MapAction)
    (updateList : list Req.t) (config config0 : Config) :
  fst (autoField field value action updateList config)
  = map (fun item => stamped field value action item config0) updateList.
Proof.
  revert config. induction updateList as [|item rest IH]; intros config; [reflexivity|].
  rewrite autoField_cons. simpl. rewrite IH. reflexivity.
Qed.

Lemma autoField_allowsAll (field : string) (value : JsValue) (action : MapAction)
    (updateList : list Req.t) (config : Config) (a : Action) :
  allowsAll (snd (autoField field value action updateList config)) a
  = allowsAll config a.
Proof.
  revert config. induction updateList as [|item rest IH]; intros config; [reflexivity|].
  rewrite autoField_cons. simpl. rewrite IH. apply pushWhitelist_allowsAll.
Qed.

Lemma autoFields_prepare (now : string) (updateList : list Req.t) (config : Config) :
  fst (autoFields now updateList config) = map (prepare now config) updateList.
Proof.
  unfold autoFields, prepare. destruct (autoTimestamp config).
  - pose proof (autoField_flags "lastUpdated" (JStr now) MSET updateList config)
      as (_ & Hv & _).
    pose proof (autoField_map "lastUpdated" (JStr now) MSET updateList config config)
      as Hmap.
    destruct (autoField "lastUpdated" (JStr now) MSET updateList config)
      as [list1 config1].
    simpl in *. rewrite Hv. destruct (autoVersion config).
    + rewrite (autoField_map "version" (JNum 1) MADD list1 config1 config), Hmap.
      rewrite map_map. reflexivity.
    + simpl. exact Hmap.
  - destruct (autoVersion config).
    + apply autoField_map.
    + simpl. rewrite map_id. reflexivity.
Qed.

Lemma autoFields_allowsAll (now : string) (updateList : list Req.t) (config : Config)
    (a : Action) :
  allowsAll (snd (autoFields now updateList config)) a = allowsAll config a.
Proof.
  unfold autoFields. destruct (autoTimestamp config).
  - pose proof (autoField_allowsAll "lastUpdated" (JStr now) MSET updateList config a)
      as Hts.
    destruct (autoField "lastUpdated" (JStr now) MSET updateList config)
      as [list1 config1].
    simpl in *. destruct (autoVersion config1); [|exact Hts].
    rewrite autoField_allowsAll. exact Hts.
  - destruct (autoVersion config); [|reflexivity]. apply autoField_allowsAll.
Qed.

Lemma omap_map_ext {A B C : Type} (f : A -> B) (g h : B -> option C) (xs : list A) :
  (forall y, g y = h y) -> omap g (map f xs) = omap (fun x => h (f x)) xs.
Proof.
  intros Hext. induction xs as [|x rest IH]; [reflexivity|].
  cbn. rewrite Hext. destruct (h (f x)); cbn in IH; rewrite IH; reflexivity.
Qed.

Lemma mapM_map_ext {A B C : Type} (f : A -> B) (g h : B -> Result C) (xs : list A) :
  (forall y, g y = h y) -> mapM g (map f xs) = mapM (fun x => h (f x)) xs.
Proof.
  intros Hext. induction xs as [|x rest IH]; [reflexivity|].
  simpl. rewrite Hext, IH. reflexivity.
Qed.

(** Under [failOnError] the loop is [mapM]. *)
Lemma compileLoop_mapM `{Runtime} (tableName : string) (config : Config)
    (updateList : list Req.t) (updateItems : list UpdateObj) (errors : list Thrown) :
  failOnError config = true ->
  compileLoop tableName config updateList updateItems errors =
  (match mapM (fun item => compileItem tableName item config) updateList with
   | Ok compiled => Ok (updateItems ++ compiled)
   | Throw e => Throw e
   end, errors).
Proof.
  intros Hmode. revert updateItems.
  induction updateList as [|item rest IH]; intros updateItems; simpl.
  - rewrite app_nil_r. reflexivity.
  - destruct (compileItem tableName item config) as [updateObj|e]; simpl.
    + rewrite IH.
      destruct (mapM (fun item => compileItem tableName item config) rest); simpl;
        [rewrite <- app_assoc|]; reflexivity.
    + rewrite Hmode. reflexivity.
Qed.

(** X2.  Without [failOnError], and with [actionRules] present, the call
    never throws: it returns, in the order of the batch, the update
    object of every request that compiles once the automatic fields are
    added, and logs, in the same order, the error of every request that
    does not.  Each request is compiled against the policy as the caller
    gave it, independently of the other requests of the batch. *)
Theorem handler_collects_independently `{Runtime} (now tableName : string)
    (updateList : list Req.t) (config : Config) :
  is_Some (actionRules config) ->
  failOnError config = false ->
  returned (quickApiUpdateHandler now tableName updateList config)
  = Ok (omap (fun item => okOf (compileItem tableName (prepare now config item) config))
             updateList)
  /\ logged (quickApiUpdateHandler now tableName updateList config)
     = omap (fun item => thrownOf (compileItem tableName (prepare now config item) config))
            updateList.
Proof.
  intros Hrules Hmode.
  rewrite (quickApiUpdateHandler_unfold now tableName updateList config Hrules).
  simpl. rewrite compileLoop_collect
    by (rewrite (proj1 (autoFields_flags now updateList config)); exact Hmode).
  simpl. rewrite autoFields_prepare. split.
  - f_equal.
    apply (omap_map_ext (prepare now config) _
             (fun item => okOf (compileItem tableName item config))).
    intros item.
    rewrite (compileItem_allowsAll tableName item _ config)
      by (intros a; apply autoFields_allowsAll).
    destruct (compileItem tableName item config); reflexivity.
  - apply (omap_map_ext (prepare now config) _
             (fun item => thrownOf (compileItem tableName item config))).
    intros item.
    rewrite (compileItem_allowsAll tableName item _ config)
      by (intros a; apply autoFields_allowsAll).
    destruct (compileItem tableName item config); reflexivity.
Qed.

Lemma handler_collects_independently_witness :
  exists u1 u3,
    returned (@quickApiUpdateHandler sampleRuntime "now" "t"
                [reqSetStatus; reqRemoveStatus; reqNoBuckets; reqSetRemoveA]
                (policy {[ "set" := ruleAllowAll ]}))
    = Ok [u1; u3]
    /\ logged (@quickApiUpdateHandler sampleRuntime "now" "t"
                 [reqSetStatus; reqRemoveStatus; reqNoBuckets; reqSetRemoveA]
                 (policy {[ "set" := ruleAllowAll ]}))
       = [ActionNotPermitted "remove"; ActionNotPermitted "remove"].
Proof.
  eexists. eexists.
  pose proof (@handler_collects_independently sampleRuntime "now" "t"
                [reqSetStatus; reqRemoveStatus; reqNoBuckets; reqSetRemoveA]
                (policy {[ "set" := ruleAllowAll ]})
                (ex_intro _ _ eq_refl) eq_refl) as [Hret Hlog].
  split.
  - rewrite Hret. vm_compute. reflexivity.
  - rewrite Hlog. vm_compute. reflexivity.
Defined.

(** X3.  With [failOnError], and with [actionRules] present, the call
    returns the update objects of all the requests when every one of
    them compiles, and otherwise throws the error of the first request,
    in the order of the batch, that does not compile; the requests after
    it are not looked at. *)
Theorem handler_fail_fast_first_error `{Runtime} (now tableName : string)
    (updateList : list Req.t) (config : Config) :
  is_Some (actionRules config) ->
  failOnError config = true ->
  returned (quickApiUpdateHandler now tableName updateList config)
  = mapM (fun item => compileItem tableName (prepare now config item) config)
         updateList
  /\ logged (quickApiUpdateHandler now tableName updateList config) = [].
Proof.
  intros Hrules Hmode.
  rewrite (quickApiUpdateHandler_unfold now tableName updateList config Hrules).
  simpl. rewrite compileLoop_mapM
    by (rewrite (proj1 (autoFields_flags now updateList config)); exact Hmode).
  simpl. split; [|reflexivity].
  rewrite autoFields_prepare.
  rewrite (mapM_map_ext (prepare now config) _
             (fun item => compileItem tableName item config)).
  - destruct (mapM _ updateList); reflexivity.
  - intros item. apply compileItem_allowsAll. intros a. apply autoFields_allowsAll.
Qed.

Lemma handler_fail_fast_first_error_witness :
  returned (@quickApiUpdateHandler sampleRuntime "now" "t"
              [reqSetStatus; reqSetAddA; reqRemoveStatus]
              (policyFailFast {[ "set" := ruleAllowAll; "add" := ruleAllowAll ]}))
  = Throw (DuplicateField "a").
Proof.
  pose proof (@handler_fail_fast_first_error sampleRuntime "now" "t"
                [reqSetStatus; reqSetAddA; reqRemoveStatus]
                (policyFailFast {[ "set" := ruleAllowAll; "add" := ruleAllowAll ]})
                (ex_intro _ _ eq_refl) eq_refl) as [Hret _].
  rewrite Hret. vm_compute. reflexivity.
Defined.

(* ===================================================================== *)
(** ** When validation passes *)
(* ===================================================================== *)

Lemma run_Ok (a b : Result unit) :
  (run a; b) = Ok tt <-> a = Ok tt /\ b = Ok tt.
Proof.
  destruct a as [[]|e]; simpl; split.
  - intros Hb. split; [reflexivity | exact Hb].
  - intros [_ Hb]. exact Hb.
  - discriminate.
  - intros [Ha _]. discriminate.
Qed.


Section AppendCheck.
Context `{Runtime}.
Variables (item : Req.t) (o : JsObject).
Hypothesis Happend : Req.append item = Some o.

Lemma checkAppendTypes_extracted :
  checkAppendTypes (extractFields item) item =
  forOf (fun field => throwIf (negb (Array_isArray (getProp o field)))
                              (InvalidAppendType field))
        (Object_keys o).
Proof.
  unfold checkAppendTypes, extractFields. simpl. rewrite Happend. simpl.
  destruct o as [|kv rest]; reflexivity.
Qed.

Lemma checkAppendTypes_first_bad (pre post : JsObject) (field : string) (v : JsValue) :
  NoDup (Object_keys o) ->
  o = pre ++ (field, v) :: post ->
  Forall (fun kv => Array_isArray (snd kv) = true) pre ->
  Array_isArray v = false ->
  checkAppendTypes (extractFields item) item = Throw (InvalidAppendType field).
Proof.
  intros Hnd Ho Hpre Hv. rewrite checkAppendTypes_extracted. apply forOf_Throw.
  exists (Object_keys pre), field, (Object_keys post). split; [|split].
  - rewrite Ho. unfold Object_keys. rewrite map_app. reflexivity.
  - apply Forall_forall. intros k Hk.
    apply list_elem_of_fmap in Hk as ([k' v'] & -> & Hin). simpl.
    rewrite (getProp_NoDup o k' v' Hnd).
    + rewrite Forall_forall in Hpre. pose proof (Hpre _ Hin) as Hok.
      simpl in Hok. rewrite Hok. reflexivity.
    + rewrite Ho. apply elem_of_app. left. exact Hin.
  - rewrite (getProp_NoDup o field v Hnd).
    + rewrite Hv. reflexivity.
    + rewrite Ho. apply elem_of_app. right. left.
Qed.

End AppendCheck.

Lemma NoDup_fieldsList_buckets (item : Req.t) :
  NoDup (fieldsListOf (extractFields item)) ->
  NoDup (keysOrEmpty (Req.add item)) /\ NoDup (keysOrEmpty (Req.append item)).
Proof.
  rewrite fieldsListOf_app. unfold extractFields. simpl. intros Hnd.
  apply NoDup_app in Hnd as (_ & _ & Hnd).
  apply NoDup_app in Hnd as (_ & _ & Hnd).
  apply NoDup_app in Hnd as (Hadd & _ & Happend). split; assumption.
Qed.


(** X5.  Take a request with an ["append"] bucket on which the
    permission loop, the duplicate check and the check of the increments
    raise nothing.  If some value of the bucket is not an array,
    validation fails with the "invalid field type in 'append'" error,
    naming the first such field in the order of the bucket. *)
Theorem append_type_check `{Runtime} (item : Req.t) (config : Config)
    (o pre post : JsObject) (field : string) (v : JsValue) :
  Req.append item = Some o ->
  forOf (checkAction (extractFields item) item config) actions = Ok tt ->
  dupeLoop ∅ (fieldsListOf (extractFields item)) = Ok tt ->
  checkAddTypes (extractFields item) item = Ok tt ->
  o = pre ++ (field, v) :: post ->
  Forall (fun kv => Array_isArray (snd kv) = true) pre ->
  Array_isArray v = false ->
  validateUpdateFields (extractFields item) item config
  = Throw (InvalidAppendType field).
Proof.
  intros Happend Hloop Hdup Hadd Ho Hpre Hv.
  rewrite (validate_after_permissions _ _ _ Hloop), Hdup, Hadd. simpl.
  apply dupeLoop_Ok in Hdup as [Hnd _].
  apply NoDup_fieldsList_buckets in Hnd as [_ Hnd].
  rewrite Happend in Hnd. simpl in Hnd.
  exact (checkAppendTypes_first_bad item o Happend pre post field v Hnd Ho Hpre Hv).
Qed.

(* ===================================================================== *)
(** ** The update expression in closed form *)
(* ===================================================================== *)

Lemma str_app_assoc (a b c : string) : (a +:+ b) +:+ c = a +:+ (b +:+ c).
Proof.
  induction a as [|x a IH]; [reflexivity|].
  change (String x ((a +:+ b) +:+ c) = String x (a +:+ (b +:+ c))). rewrite IH. reflexivity.
Qed.

Lemma concat_app_nonempty (sep : string) (l1 l2 : list string) :
  l1 <> [] -> l2 <> [] ->
  String.concat sep (l1 ++ l2) = String.concat sep l1 +:+ sep +:+ String.concat sep l2.
Proof.
  intros H1 H2. induction l1 as [|x rest IH]; [contradiction|].
  destruct rest as [|y rest].
  - destruct l2 as [|z l2]; [contradiction|]. reflexivity.
  - change (x +:+ sep +:+ String.concat sep ((y :: rest) ++ l2)
            = (x +:+ sep +:+ String.concat sep (y :: rest)) +:+ sep +:+ String.concat sep l2).
    rewrite IH by discriminate. rewrite !str_app_assoc. reflexivity.
Qed.

Lemma concat_cons_positive (sep x : string) (rest : list string) :
  (0 < String.length x)%nat ->
  (0 < String.length (String.concat sep (x :: rest)))%nat.
Proof.
  intros Hx. destruct x as [|c x]; [simpl in Hx; lia|].
  destruct rest; simpl; lia.
Qed.

Lemma nonEmpty_nil {A : Type} : nonEmpty (@nil A) = false.
Proof. reflexivity. Qed.

Lemma nonEmpty_cons {A : Type} (x : A) (xs : list A) : nonEmpty (x :: xs) = true.
Proof. reflexivity. Qed.

Lemma positive_S (n : nat) : bool_decide (0 < S n)%nat = true.
Proof. apply bool_decide_eq_true_2. lia. Qed.

Lemma positive_0 : bool_decide (0 < 0)%nat = false.
Proof. reflexivity. Qed.

Lemma str_app_nil_l (s : string) : "" +:+ s = s.
Proof. reflexivity. Qed.

Lemma setExpression_joined (fs fa fp : list string) :
  String.concat ","
    (map portionToString
       (List.filter (fun exp => bool_decide (0 < portionLength exp)%nat)
          [ if nonEmpty fs then PArray (map setClause fs) else PString "";
            if nonEmpty fa then PArray (map addClause fa) else PString "";
            if nonEmpty fp
            then PString ("" +:+ portionToString (PArray (map appendClause fp)))
            else PString "" ]))
  = String.concat "," (map setClause fs ++ map addClause fa ++ map appendClause fp).
Proof.
  assert (forall p pp, bool_decide
            (0 < String.length
                   (String.concat "," (appendClause p :: map appendClause pp)))%nat
          = true) as Hpos.
  { intros p pp. apply bool_decide_eq_true_2.
    apply concat_cons_positive. unfold appendClause.
    change (0 < S (String.length ("#" +:+ p +:+ " = list_append(if_not_exists(#" +:+
                 p +:+ ", :append__start__value), :" +:+ p +:+ ")")))%nat. lia. }
  destruct fs as [|s ss], fa as [|a aa], fp as [|p pp];
    repeat first
      [ rewrite (@nonEmpty_nil string)
      | rewrite nonEmpty_cons
      | rewrite positive_S
      | rewrite positive_0
      | rewrite str_app_nil_l
      | rewrite Hpos
      | progress cbn [List.filter portionLength length map String.length
                      portionToString] ];
    rewrite ?app_nil_l, ?app_nil_r, ?concat_app_nonempty by discriminate;
    reflexivity.
Qed.

Lemma keyword_positive (keyword rest : string) :
  keyword <> "" -> bool_decide (0 < String.length (keyword +:+ rest))%nat = true.
Proof.
  intros Hk. apply bool_decide_eq_true_2. destruct keyword as [|c k]; [contradiction|].
  change (0 < S (String.length (k +:+ rest)))%nat. lia.
Qed.

Section BuilderFacts.
Context `{Runtime}.

Lemma registerValues_nil (options : MarshallOptions) (bucket : option JsObject)
    (values : gmap string JsValue) :
  registerValues options bucket [] values = Ok values.
Proof. reflexivity. Qed.

Lemma builder_nf (allFields : Fields.t) (item : Req.t) :
  updateExpressionBuilder allFields item =
  (do v1 <- registerValues setOptions (Req.set item) (Fields.set allFields) ∅;
   do v2 <- registerValues addOptions (Req.add item) (Fields.add allFields)
              (if nonEmpty (Fields.add allFields)
               then <[":add__start__value" := marshall noOptions (JNum 0)]> v1 else v1);
   do v3 <- registerValues setOptions (Req.append item) (Fields.append allFields)
              (if nonEmpty (Fields.append allFields)
               then <[":append__start__value" := JObj [("L", JArr [])]]> v2 else v2);
   Ok {| updateExpression := expressionOf allFields;
         expressionAttributeNames :=
           registerNames (Fields.remove allFields) ∅
             ∪ registerNames (Fields.append allFields)
                 (registerNames (Fields.add allFields)
                    (registerNames (Fields.set allFields) ∅));
         expressionAttributeValues := v3 |}).
Proof.
  destruct allFields as [fs fr fa fp]. unfold updateExpressionBuilder, expressionOf.
  cbn [Fields.set Fields.remove Fields.add Fields.append].
  pose proof (setExpression_joined fs fa fp) as Hj.
  unfold setClause, addClause, appendClause, removeClause in *.
  destruct fs as [|s ss], fa as [|a aa], fp as [|p pp], fr as [|r rr];
    repeat first
      [ rewrite (@nonEmpty_nil string) in *
      | rewrite nonEmpty_cons in *
      | rewrite registerValues_nil
      | progress cbn [orb bind registerNames foldl map app] in *
      | match goal with
        | |- context [bind (registerValues ?o ?b ?l ?m)] =>
            destruct (registerValues o b l m)
        end ];
    try reflexivity.
  all: f_equal; f_equal; rewrite Hj;
    repeat first
      [ rewrite keyword_positive by discriminate
      | rewrite positive_0
      | progress cbn [List.filter String.length String.concat] ];
    reflexivity.
Qed.

Lemma registerValues_Some (options : MarshallOptions) (o : JsObject)
    (fields : list string) (values : gmap string JsValue) :
  registerValues options (Some o) fields values
  = Ok (bindValues options o fields values).
Proof.
  revert values. induction fields as [|field rest IH]; intros values; [reflexivity|].
  simpl. rewrite IH. reflexivity.
Qed.

Lemma registerValues_keys (options : MarshallOptions) (bucket : option JsObject)
    (values : gmap string JsValue) :
  registerValues options bucket (keysOrEmpty bucket) values
  = Ok (bindValues options (default [] bucket) (keysOrEmpty bucket) values).
Proof.
  destruct bucket as [o|]; [apply registerValues_Some | reflexivity].
Qed.

(** The update object of a request, when there is one. *)
Lemma compileItem_nf (tableName : string) (item : Req.t) (config : Config) :
  compileItem tableName item config =
  (run throwIf (malformedKey (Req.key item)) (MalformedKey (keyToString (Req.key item)));
   run validateUpdateFields (extractFields item) item config;
   Ok {| action := "Update";
         data := {| TableName := tableName;
                    Key := marshall noOptions (JObj (default [] (Req.key item)));
                    UpdateExpression := expressionOf (extractFields item);
                    ExpressionAttributeNames := namesOf (extractFields item);
                    ExpressionAttributeValues := valuesOf item;
                    ConditionExpression := "attribute_exists(pk)" |} |}).
Proof.
  unfold compileItem. rewrite builder_nf.
  unfold extractFields. cbn [Fields.set Fields.remove Fields.add Fields.append].
  rewrite !registerValues_keys. cbn [bind].
  rewrite registerValues_keys. cbn [bind]. rewrite registerValues_keys. reflexivity.
Qed.

Lemma hash_inj (f g : string) : "#" +:+ f = "#" +:+ g -> f = g.
Proof. intros Heq. change (String "#" f = String "#" g) in Heq. congruence. Qed.

Lemma colon_inj (f g : string) : ":" +:+ f = ":" +:+ g -> f = g.
Proof. intros Heq. change (String ":" f = String ":" g) in Heq. congruence. Qed.

Lemma registerNames_lookup (fields : list string) (names : gmap string string)
    (k f : string) :
  (forall k' f', names !! k' = Some f' -> k' = "#" +:+ f') ->
  registerNames fields names !! k = Some f
  <-> (k = "#" +:+ f /\ f ∈ fields) \/ names !! k = Some f.
Proof.
  revert names. induction fields as [|x rest IH]; intros names Hinv.
  - simpl. split; [right; assumption|]. intros [[_ Hin]|Hl]; [inversion Hin | exact Hl].
  - change (registerNames (x :: rest) names)
      with (registerNames rest (<["#" +:+ x := x]> names)).
    rewrite IH.
    + rewrite lookup_insert. destruct (decide ("#" +:+ x = k)) as [<-|Hne].
      * split.
        -- intros [[Hk Hin]|[= <-]]; left.
           ++ split; [exact Hk | right; exact Hin].
           ++ split; [reflexivity | left].
        -- intros [[Hk Hin]|Hl].
           ++ apply hash_inj in Hk as <-. right. reflexivity.
           ++ apply Hinv in Hl. apply hash_inj in Hl as <-. right. reflexivity.
      * split.
        -- intros [[Hk Hin]|Hl]; [|right; exact Hl].
           left. split; [exact Hk | right; exact Hin].
        -- intros [[Hk Hin]|Hl]; [|right; exact Hl].
           left. split; [exact Hk|]. apply elem_of_cons in Hin as [->|Hin]; [|exact Hin].
           congruence.
    + intros k' f'. rewrite lookup_insert.
      destruct (decide ("#" +:+ x = k')) as [<-|Hne]; [intros [= <-]; reflexivity|].
      apply Hinv.
Qed.

Lemma namesOf_lookup (allFields : Fields.t) (k f : string) :
  namesOf allFields !! k = Some f
  <-> k = "#" +:+ f /\ f ∈ fieldsListOf allFields.
Proof.
  assert (forall fields names k f,
            (forall k' f', names !! k' = Some f' -> k' = "#" +:+ f') ->
            registerNames fields names !! k = Some f -> k = "#" +:+ f) as Hinv.
  { intros fields names k0 f0 Hnames Hl.
    apply registerNames_lookup in Hl as [[Hk _]|Hl]; [exact Hk | apply Hnames; exact Hl | exact Hnames]. }
  assert (forall k' f', (∅ : gmap string string) !! k' = Some f' -> k' = "#" +:+ f') as H0.
  { intros k' f'. rewrite lookup_empty. discriminate. }
  unfold namesOf. rewrite lookup_union_Some_raw, fieldsListOf_app, !elem_of_app.
  rewrite !registerNames_lookup by eauto using Hinv.
  rewrite !lookup_empty.
  destruct (registerNames (Fields.remove allFields) ∅ !! k) as [f'|] eqn:Hr.
  - apply registerNames_lookup in Hr as [[Hk Hin]|Hr]; [|rewrite lookup_empty in Hr; discriminate | exact H0].
    split.
    + intros [[[Hk' Hin']|[=]]|[[=] _]]. tauto.
    + intros [Hk' _]. rewrite Hk' in Hk. apply hash_inj in Hk as ->. tauto.
  - split.
    + intros [[[Hk' Hin']|[=]]|[_ Hs]]; [tauto|].
      destruct Hs as [[Hk' Hin']|[[Hk' Hin']|[[Hk' Hin']|[=]]]]; tauto.
    + intros [Hk [Hin|[Hin|[Hin|Hin]]]]; tauto.
Qed.

Lemma bindValues_lookup (options : MarshallOptions) (o : JsObject)
    (fields : list string) (values : gmap string JsValue) (f : string) :
  bindValues options o fields values !! (":" +:+ f)
  = if bool_decide (f ∈ fields)
    then Some (marshall options (getProp o f))
    else values !! (":" +:+ f).
Proof.
  revert values. induction fields as [|x rest IH]; intros values; [reflexivity|].
  change (bindValues options o (x :: rest) values)
    with (bindValues options o rest
            (<[":" +:+ x := marshall options (getProp o x)]> values)).
  rewrite IH. destruct (bool_decide (f ∈ rest)) eqn:Hrest.
  - apply bool_decide_eq_true in Hrest.
    rewrite bool_decide_eq_true_2 by (right; exact Hrest). reflexivity.
  - apply bool_decide_eq_false in Hrest.
    destruct (decide (x = f)) as [->|Hne].
    + rewrite lookup_insert_eq, bool_decide_eq_true_2 by left. reflexivity.
    + rewrite lookup_insert_ne by (intros Heq; apply colon_inj in Heq; contradiction).
      rewrite bool_decide_eq_false_2; [reflexivity|].
      intros Hin. apply elem_of_cons in Hin as [->|Hin]; contradiction.
Qed.

Lemma reserved_lookup (b : bool) (name : string) (v : JsValue)
    (values : gmap string JsValue) (f : string) :
  (if b then <[":" +:+ name := v]> values else values) !! (":" +:+ f)
  = if b && bool_decide (f = name) then Some v else values !! (":" +:+ f).
Proof.
  destruct b; [|reflexivity]. simpl.
  destruct (decide (f = name)) as [->|Hne].
  - rewrite lookup_insert_eq, bool_decide_eq_true_2 by reflexivity. reflexivity.
  - rewrite lookup_insert_ne by (intros Heq; apply colon_inj in Heq; congruence).
    rewrite bool_decide_eq_false_2 by exact Hne. reflexivity.
Qed.

Lemma valuesOf_lookup (item : Req.t) (f : string) :
  valuesOf item !! (":" +:+ f) = boundValue item f.
Proof.
  unfold valuesOf, boundValue.
  change ":append__start__value" with (":" +:+ "append__start__value").
  change ":add__start__value" with (":" +:+ "add__start__value").
  rewrite bindValues_lookup, reserved_lookup, bindValues_lookup, reserved_lookup,
    bindValues_lookup, lookup_empty.
  reflexivity.
Qed.
End BuilderFacts.


(** X7.  The update object of a request bears the table name of the
    call and the marshalled key of the request, and its update
    expression is [SET] followed by the clauses of the fields of
    ["set"], ["add"] and ["append"], in this order and separated by
    commas, then [REMOVE] followed by the names of ["remove"], the two
    parts separated by one space and a part without field left out. *)
Theorem compiled_expression `{Runtime} (tableName : string) (item : Req.t)
    (config : Config) (updateObj : UpdateObj) :
  compileItem tableName item config = Ok updateObj ->
  TableName (data updateObj) = tableName
  /\ (exists k, Req.key item = Some k
                /\ Key (data updateObj) = marshall noOptions (JObj k))
  /\ UpdateExpression (data updateObj) = expressionOf (extractFields item).
Proof.
  rewrite compileItem_nf. unfold throwIf, malformedKey.
  destruct (Req.key item) as [k|]; simpl; [|discriminate].
  destruct (negb _ || negb _); simpl; [discriminate|].
  destruct (validateUpdateFields _ _ _); simpl; [|discriminate].
  intros [= <-]. simpl. split; [reflexivity|]. split; [|reflexivity].
  exists k. split; reflexivity.
Qed.

(** X8.  The names of an update object are exactly the placeholders of
    the fields of the request: [#field] is bound to [field] for every
    field of every bucket, and nothing else is bound. *)
Theorem compiled_names `{Runtime} (tableName : string) (item : Req.t)
    (config : Config) (updateObj : UpdateObj) :
  compileItem tableName item config = Ok updateObj ->
  forall k field,
    ExpressionAttributeNames (data updateObj) !! k = Some field
    <-> k = "#" +:+ field /\ field ∈ fieldsListOf (extractFields item).
Proof.
  rewrite compileItem_nf.
  destruct (throwIf _ _); simpl; [|discriminate].
  destruct (validateUpdateFields _ _ _); simpl; [|discriminate].
  intros [= <-] k field. simpl. apply namesOf_lookup.
Qed.

Lemma compileItem_Ok_NoDup `{Runtime} (tableName : string) (item : Req.t)
    (config : Config) (updateObj : UpdateObj) :
  compileItem tableName item config = Ok updateObj ->
  NoDup (fieldsListOf (extractFields item))
  /\ ExpressionAttributeValues (data updateObj) = valuesOf item.
Proof.
  rewrite compileItem_nf.
  destruct (throwIf _ _); simpl; [|discriminate].
  destruct (validateUpdateFields _ _ _) as [[]|] eqn:Hvalid; simpl; [|discriminate].
  intros [= <-]. split; [|reflexivity].
  unfold validateUpdateFields in Hvalid.
  apply run_Ok in Hvalid as [_ Hvalid]. apply run_Ok in Hvalid as [Hdup _].
  apply dupeLoop_Ok in Hdup as [Hnd _]. exact Hnd.
Qed.

Lemma NoDup_fieldsList_disjoint (item : Req.t) (field : string) :
  NoDup (fieldsListOf (extractFields item)) ->
  ((field ∈ keysOrEmpty (Req.set item)) ->
   (field ∉ keysOrEmpty (Req.add item)) /\ (field ∉ keysOrEmpty (Req.append item)))
  /\ ((field ∈ keysOrEmpty (Req.add item)) -> (field ∉ keysOrEmpty (Req.append item))).
Proof.
  rewrite fieldsListOf_app. unfold extractFields. simpl.
  rewrite !NoDup_app. intros (_ & Hs & _ & _ & _ & Ha & _). split.
  - intros Hin. specialize (Hs field Hin). rewrite !elem_of_app in Hs. tauto.
  - intros Hin. exact (Ha field Hin).
Qed.

(** X9.  In the values of an update object the placeholder of a field
    that is not called [add__start__value] or [append__start__value] is
    bound to the marshalled value the request gives the field: with the
    options of ["set"] for a field of ["set"] or of ["append"], with
    those of ["add"] for a field of ["add"]. *)
Theorem compiled_values `{Runtime} (tableName : string) (item : Req.t)
    (config : Config) (updateObj : UpdateObj) (field : string) :
  compileItem tableName item config = Ok updateObj ->
  field <> "add__start__value" ->
  field <> "append__start__value" ->
  (field ∈ keysOrEmpty (Req.set item) ->
   ExpressionAttributeValues (data updateObj) !! (":" +:+ field)
   = Some (marshall setOptions (getProp (default [] (Req.set item)) field)))
  /\ (field ∈ keysOrEmpty (Req.add item) ->
      ExpressionAttributeValues (data updateObj) !! (":" +:+ field)
      = Some (marshall addOptions (getProp (default [] (Req.add item)) field)))
  /\ (field ∈ keysOrEmpty (Req.append item) ->
      ExpressionAttributeValues (data updateObj) !! (":" +:+ field)
      = Some (marshall setOptions (getProp (default [] (Req.append item)) field))).
Proof.
  intros Hcompile Hadd Happend.
  apply compileItem_Ok_NoDup in Hcompile as [Hnd ->].
  destruct (NoDup_fieldsList_disjoint item field Hnd) as [Hset Hadd'].
  rewrite valuesOf_lookup. unfold boundValue.
  rewrite (bool_decide_eq_false_2 (field = "append__start__value")) by exact Happend.
  rewrite (bool_decide_eq_false_2 (field = "add__start__value")) by exact Hadd.
  rewrite !andb_false_r.
  split; [|split]; intros Hin.
  - destruct (Hset Hin) as [Hna Hnp].
    rewrite (bool_decide_eq_false_2 _ Hnp), (bool_decide_eq_false_2 _ Hna),
      (bool_decide_eq_true_2 _ Hin). reflexivity.
  - rewrite (bool_decide_eq_false_2 _ (Hadd' Hin)), (bool_decide_eq_true_2 _ Hin).
    reflexivity.
  - rewrite (bool_decide_eq_true_2 _ Hin). reflexivity.
Qed.

(** X10.  The builder keeps the start value of the increments under the
    placeholder [:add__start__value].  When a request that compiles has
    a field called [add__start__value] in ["set"] and at least one field
    in ["add"], that placeholder is bound to the marshalled zero, not to
    the value the request gives the field, while the expression still
    assigns the placeholder to the field. *)
Theorem reserved_placeholder_overwrites `{Runtime} (tableName : string)
    (item : Req.t) (config : Config) (updateObj : UpdateObj) :
  compileItem tableName item config = Ok updateObj ->
  "add__start__value" ∈ keysOrEmpty (Req.set item) ->
  keysOrEmpty (Req.add item) <> [] ->
  ExpressionAttributeValues (data updateObj) !! ":add__start__value"
  = Some (marshall noOptions (JNum 0))
  /\ ExpressionAttributeNames (data updateObj) !! "#add__start__value"
     = Some "add__start__value".
Proof.
  intros Hcompile Hin Hfields.
  pose proof (compileItem_Ok_NoDup _ _ _ _ Hcompile) as [Hnd Hvalues].
  destruct (NoDup_fieldsList_disjoint item "add__start__value" Hnd) as [Hset _].
  destruct (Hset Hin) as [Hna Hnp]. split.
  - rewrite Hvalues.
    change ":add__start__value" with (":" +:+ "add__start__value").
    rewrite valuesOf_lookup. unfold boundValue.
    rewrite (bool_decide_eq_false_2 _ Hnp), (bool_decide_eq_false_2 _ Hna).
    rewrite (bool_decide_eq_false_2 ("add__start__value" = "append__start__value"))
      by discriminate.
    rewrite andb_false_r.
    destruct (keysOrEmpty (Req.add item)); [contradiction|]. reflexivity.
  - revert Hcompile. rewrite compileItem_nf.
    destruct (throwIf _ _); simpl; [|discriminate].
    destruct (validateUpdateFields _ _ _); simpl; [|discriminate].
    intros [= <-]. simpl.
    apply namesOf_lookup. split; [reflexivity|].
    rewrite fieldsListOf_app. apply elem_of_app. left. exact Hin.
Qed.

Lemma append_type_check_witness :
  @validateUpdateFields sampleRuntime (extractFields reqAppendBad) reqAppendBad
    (policy {[ "append" := ruleAllowAll ]})
  = Throw (InvalidAppendType "note").
Proof.
  refine (@append_type_check sampleRuntime reqAppendBad
            (policy {[ "append" := ruleAllowAll ]})
            [("tags", JArr [JStr "a"]); ("note", JStr "x")]
            [("tags", JArr [JStr "a"])] [] "note" (JStr "x")
            eq_refl _ _ _ eq_refl _ eq_refl).
  - vm_compute. reflexivity.
  - vm_compute. reflexivity.
  - vm_compute. reflexivity.
  - repeat constructor.
Defined.

Lemma compiled_expression_witness :
  exists updateObj,
    @compileItem sampleRuntime "t" reqAllBuckets policyAllowEverything = Ok updateObj
    /\ UpdateExpression (data updateObj)
       = "SET #add__start__value = :add__start__value, #status = :status, #hits = if_not_exists(#hits, :add__start__value) + :hits, #tags = list_append(if_not_exists(#tags, :append__start__value), :tags) REMOVE #old".
Proof.
  assert (exists updateObj,
            @compileItem sampleRuntime "t" reqAllBuckets policyAllowEverything
            = Ok updateObj) as [updateObj Hcompile]
    by (eexists; vm_compute; reflexivity).
  exists updateObj. split; [exact Hcompile|].
  destruct (@compiled_expression sampleRuntime "t" reqAllBuckets
              policyAllowEverything updateObj Hcompile) as (_ & _ & ->).
  vm_compute. reflexivity.
Defined.

Lemma compiled_names_witness :
  exists updateObj,
    @compileItem sampleRuntime "t" reqAllBuckets policyAllowEverything = Ok updateObj
    /\ ExpressionAttributeNames (data updateObj) !! "#old" = Some "old".
Proof.
  assert (exists updateObj,
            @compileItem sampleRuntime "t" reqAllBuckets policyAllowEverything
            = Ok updateObj) as [updateObj Hcompile]
    by (eexists; vm_compute; reflexivity).
  exists updateObj. split; [exact Hcompile|].
  apply (@compiled_names sampleRuntime "t" reqAllBuckets policyAllowEverything
           updateObj Hcompile "#old" "old").
  split; [reflexivity|]. vm_compute. repeat constructor.
Defined.

Lemma compiled_values_witness :
  exists updateObj,
    @compileItem sampleRuntime "t" reqAllBuckets policyAllowEverything = Ok updateObj
    /\ ExpressionAttributeValues (data updateObj) !! ":status"
       = Some (JObj [("S", JStr "done")]).
Proof.
  assert (exists updateObj,
            @compileItem sampleRuntime "t" reqAllBuckets policyAllowEverything
            = Ok updateObj) as [updateObj Hcompile]
    by (eexists; vm_compute; reflexivity).
  exists updateObj. split; [exact Hcompile|].
  refine (proj1 (@compiled_values sampleRuntime "t" reqAllBuckets
                   policyAllowEverything updateObj "status" Hcompile _ _) _).
  - discriminate.
  - discriminate.
  - vm_compute. repeat constructor.
Defined.

Lemma reserved_placeholder_overwrites_witness :
  exists updateObj,
    @compileItem sampleRuntime "t" reqAllBuckets policyAllowEverything = Ok updateObj
    /\ getProp (default [] (Req.set reqAllBuckets)) "add__start__value" = JStr "mine"
    /\ ExpressionAttributeValues (data updateObj) !! ":add__start__value"
       = Some (JObj [("N", JStr "0")]).
Proof.
  assert (exists updateObj,
            @compileItem sampleRuntime "t" reqAllBuckets policyAllowEverything
            = Ok updateObj) as [updateObj Hcompile]
    by (eexists; vm_compute; reflexivity).
  exists updateObj. split; [exact Hcompile|]. split; [reflexivity|].
  refine (proj1 (@reserved_placeholder_overwrites sampleRuntime "t" reqAllBuckets
                   policyAllowEverything updateObj Hcompile _ _)).
  - vm_compute. repeat constructor.
  - discriminate.
Defined.

Lemma remove_bucket_denied_witness :
  @validateUpdateFields sampleRuntime (extractFields reqSetRemoveA) reqSetRemoveA
    (policy {[ "set" := ruleAllowAll; "remove" := ruleWhitelist ["a"] ]})
  = Throw (ActionNotPermitted "remove").
Proof.
  apply (@remove_bucket_denied sampleRuntime (extractFields reqSetRemoveA)
           reqSetRemoveA
           (policy {[ "set" := ruleAllowAll; "remove" := ruleWhitelist ["a"] ]})
           ["a"]).
  - reflexivity.
  - discriminate.
  - vm_compute. reflexivity.
  - vm_compute. reflexivity.
Defined.

(* ===================================================================== *)
(** ** What the automatic fields leave alone *)
(* ===================================================================== *)

Lemma getProp_deleteProp_other (o : JsObject) (field g : string) :
  g <> field -> getProp (deleteProp o field) g = getProp o g.
Proof.
  intros Hne. unfold deleteProp. induction o as [|[k v] rest IH]; [reflexivity|].
  destruct (decide (k = field)) as [->|Hk].
  - rewrite filter_cons_False by (simpl; tauto). simpl.
    destruct (decide (field = g)); [congruence | exact IH].
  - rewrite filter_cons_True by (simpl; congruence). simpl.
    destruct (decide (k = g)); [reflexivity | exact IH].
Qed.

Lemma getProp_setProp_other (o : JsObject) (field g : string) (value : JsValue) :
  g <> field -> getProp (setProp o field value) g = getProp o g.
Proof.
  intros Hne. induction o as [|[k v] rest IH]; simpl.
  - destruct (decide (field = g)); [congruence | reflexivity].
  - destruct (decide (k = field)) as [->|Hk]; simpl.
    + destruct (decide (field = g)); [congruence | reflexivity].
    + destruct (decide (k = g)); [reflexivity | exact IH].
Qed.

Lemma stamped_key (field : string) (value : JsValue) (action : MapAction)
    (item : Req.t) (config : Config) :
  Req.key (stamped field value action item config) = Req.key item.
Proof.
  unfold stamped. rewrite clearRequestFieldFromAllActions_spec.
  destruct item as [k [s|] [r|] [a|] [p|]], action; reflexivity.
Qed.

(** One automatic field: every other field keeps its place and value. *)
Lemma stamped_other (field : string) (value : JsValue) (action : MapAction)
    (item : Req.t) (config : Config) (g : string) :
  g <> field ->
  (forall m,
      getProp (default [] (mapping (stamped field value action item config) m)) g
      = getProp (default [] (mapping item m)) g
      /\ (g ∈ keysOrEmpty (mapping (stamped field value action item config) m)
          <-> g ∈ keysOrEmpty (mapping item m)))
  /\ (g ∈ default [] (Req.remove (stamped field value action item config))
      <-> g ∈ default [] (Req.remove item)).
Proof.
  intros Hne. split.
  - intros m. rewrite stamped_mapping. destruct (decide (m = action)) as [->|Hm].
    + simpl. rewrite getProp_setProp_other, getProp_deleteProp_other by exact Hne.
      split; [reflexivity|].
      rewrite setProp_keys, deleteProp_keys.
      destruct (mapping item action); simpl; tauto.
    + destruct (mapping item m) as [o|]; simpl; [|tauto].
      rewrite getProp_deleteProp_other by exact Hne.
      split; [reflexivity|]. rewrite deleteProp_keys. tauto.
  - rewrite stamped_remove. destruct (Req.remove item) as [r|]; simpl; [|tauto].
    rewrite list_elem_of_filter. tauto.
Qed.

(** X13.  Adding the automatic fields changes nothing else in a
    request: the key is the same, and every field other than
    [lastUpdated] and [version] is in the same buckets as before, with
    the same value. *)
Theorem automatic_fields_leave_the_rest (now : string) (config : Config)
    (item : Req.t) (g : string) :
  g <> "lastUpdated" ->
  g <> "version" ->
  Req.key (prepare now config item) = Req.key item
  /\ (forall m,
         getProp (default [] (mapping (prepare now config item) m)) g
         = getProp (default [] (mapping item m)) g
         /\ (g ∈ keysOrEmpty (mapping (prepare now config item) m)
             <-> g ∈ keysOrEmpty (mapping item m)))
  /\ (g ∈ default [] (Req.remove (prepare now config item))
      <-> g ∈ default [] (Req.remove item)).
Proof.
  intros Hts Hver. unfold prepare.
  destruct (autoTimestamp config), (autoVersion config).
  - pose proof (stamped_other "lastUpdated" (JStr now) MSET item config g Hts)
      as [Hm1 Hr1].
    pose proof (stamped_other "version" (JNum 1) MADD
                  (stamped "lastUpdated" (JStr now) MSET item config) config g Hver)
      as [Hm2 Hr2].
    rewrite !stamped_key. split; [reflexivity|]. split.
    + intros m. destruct (Hm1 m) as [Hv1 Hk1], (Hm2 m) as [Hv2 Hk2].
      rewrite Hv2, Hv1, Hk2, Hk1. tauto.
    + rewrite Hr2, Hr1. tauto.
  - pose proof (stamped_other "lastUpdated" (JStr now) MSET item config g Hts)
      as [Hm1 Hr1].
    rewrite stamped_key. split; [reflexivity|]. split; [exact Hm1 | exact Hr1].
  - pose proof (stamped_other "version" (JNum 1) MADD item config g Hver)
      as [Hm2 Hr2].
    rewrite stamped_key. split; [reflexivity|]. split; [exact Hm2 | exact Hr2].
  - split; [reflexivity|]. split; [intros m|]; tauto.
Qed.

Lemma automatic_fields_leave_the_rest_witness :
  getProp (default [] (Req.set (prepare "now"
                                 (policyAuto {[ "set" := ruleAllowAll ]})
                                 reqAllBuckets))) "status"
  = JStr "done".
Proof.
  refine (eq_trans
            (proj1 (proj1 (proj2
               (automatic_fields_leave_the_rest "now"
                  (policyAuto {[ "set" := ruleAllowAll ]}) reqAllBuckets "status"
                  _ _)) MSET)) eq_refl).
  - discriminate.
  - discriminate.
Defined.

(* ===================================================================== *)
(** ** The whitelist the automatic fields extend *)
(* ===================================================================== *)

(** The rule with one more name at the end of its whitelist. *)
Lemma pushWhitelist_same (config : Config) (name field : string) (rule : Rule.t)
    (whitelist : list string) :
  rulesFor config name = Some rule ->
  Rule.whitelist rule = Some whitelist ->
  rulesFor (pushWhitelist config name field) name
  = Some {| Rule.allowAll := Rule.allowAll rule;
            Rule.whitelist := Some (whitelist ++ [field]);
            Rule.blacklist := Rule.blacklist rule;
            Rule.mandatoryFields := Rule.mandatoryFields rule |}.
Proof.
  unfold rulesFor, pushWhitelist.
  destruct (actionRules config) as [rules|]; [|discriminate].
  intros Hrule Hlist. rewrite Hrule, Hlist. simpl. apply lookup_insert_eq.
Qed.

Lemma pushWhitelist_other (config : Config) (name name' field : string) :
  name' <> name ->
  rulesFor (pushWhitelist config name field) name' = rulesFor config name'.
Proof.
  intros Hne. unfold rulesFor, pushWhitelist.
  destruct (actionRules config) as [rules|] eqn:Hrules; [|rewrite Hrules; reflexivity].
  destruct (rules !! name) as [rule|]; [|rewrite Hrules; reflexivity].
  destruct (Rule.whitelist rule); [|rewrite Hrules; reflexivity].
  simpl. apply lookup_insert_ne. congruence.
Qed.

Lemma autoField_whitelist (field : string) (value : JsValue) (action : MapAction)
    (updateList : list Req.t) (config : Config) (rule : Rule.t)
    (whitelist : list string) :
  rulesFor config (actionName (toAction action)) = Some rule ->
  Rule.whitelist rule = Some whitelist ->
  rulesFor (snd (autoField field value action updateList config))
           (actionName (toAction action))
  = Some {| Rule.allowAll := Rule.allowAll rule;
            Rule.whitelist := Some (whitelist ++ replicate (length updateList) field);
            Rule.blacklist := Rule.blacklist rule;
            Rule.mandatoryFields := Rule.mandatoryFields rule |}.
Proof.
  revert config rule whitelist.
  induction updateList as [|item rest IH]; intros config rule whitelist Hrule Hlist.
  - simpl. rewrite app_nil_r, Hrule, <- Hlist. destruct rule; reflexivity.
  - rewrite autoField_cons. simpl.
    rewrite (IH _ _ (whitelist ++ [field])
               (pushWhitelist_same config _ field rule whitelist Hrule Hlist) eq_refl).
    simpl. rewrite <- app_assoc. reflexivity.
Qed.

Lemma autoField_other_rule (field : string) (value : JsValue) (action : MapAction)
    (updateList : list Req.t) (config : Config) (name : string) :
  name <> actionName (toAction action) ->
  rulesFor (snd (autoField field value action updateList config)) name
  = rulesFor config name.
Proof.
  intros Hne. revert config.
  induction updateList as [|item rest IH]; intros config; [reflexivity|].
  rewrite autoField_cons. simpl. rewrite IH. apply pushWhitelist_other. exact Hne.
Qed.

(** X14.  A call with [autoTimestamp] changes the policy object it was
    given: when the rule of ["set"] has a whitelist, the call leaves it
    with the name [lastUpdated] added at its end once for every request
    of the batch, and the rest of the rule as it was.  A second call
    with the same policy object starts from the longer whitelist. *)
Theorem timestamp_extends_whitelist `{Runtime} (now tableName : string)
    (updateList : list Req.t) (config : Config) (rule : Rule.t)
    (whitelist : list string) :
  rulesFor config "set" = Some rule ->
  Rule.whitelist rule = Some whitelist ->
  autoTimestamp config = true ->
  rulesFor (configAfter (quickApiUpdateHandler now tableName updateList config)) "set"
  = Some {| Rule.allowAll := Rule.allowAll rule;
            Rule.whitelist :=
              Some (whitelist ++ replicate (length updateList) "lastUpdated");
            Rule.blacklist := Rule.blacklist rule;
            Rule.mandatoryFields := Rule.mandatoryFields rule |}.
Proof.
  intros Hrule Hlist Hts.
  assert (is_Some (actionRules config)) as Hrules.
  { unfold rulesFor in Hrule. destruct (actionRules config); [eauto | discriminate]. }
  rewrite (quickApiUpdateHandler_unfold now tableName updateList config Hrules).
  simpl. unfold autoFields. rewrite Hts.
  pose proof (autoField_whitelist "lastUpdated" (JStr now) MSET updateList config
                rule whitelist Hrule Hlist) as Hgrown.
  destruct (autoField "lastUpdated" (JStr now) MSET updateList config)
    as [list1 config1].
  simpl in Hgrown. destruct (autoVersion config1); [|exact Hgrown].
  rewrite (autoField_other_rule "version" (JNum 1) MADD list1 config1 "set")
    by discriminate.
  exact Hgrown.
Qed.

Lemma timestamp_extends_whitelist_witness :
  rulesFor (configAfter (@quickApiUpdateHandler sampleRuntime "now" "t"
                           [reqSetStatus; reqNoBuckets]
                           (policyAuto {[ "set" := ruleWhitelist ["status"] ]})))
           "set"
  = Some (ruleWhitelist ["status"; "lastUpdated"; "lastUpdated"]).
Proof.
  apply (@timestamp_extends_whitelist sampleRuntime "now" "t"
           [reqSetStatus; reqNoBuckets]
           (policyAuto {[ "set" := ruleWhitelist ["status"] ]})
           (ruleWhitelist ["status"]) ["status"]);
    reflexivity.
Defined.

(* ===================================================================== *)
(** ** Automatic fields and the duplicate check *)
(* ===================================================================== *)

Lemma str_length_app (a b : string) :
  String.length (a +:+ b) = (String.length a + String.length b)%nat.
Proof.
  induction a as [|c a IH]; [reflexivity|].
  change (S (String.length (a +:+ b)) = S (String.length a + String.length b)).
  rewrite IH. reflexivity.
Qed.

Lemma str_app_inv_tail (a b s : string) : a +:+ s = b +:+ s -> a = b.
Proof.
  revert b. induction a as [|c a IH]; intros [|d b] Heq.
  - reflexivity.
  - apply (f_equal String.length) in Heq.
    change (String.length s = S (String.length (b +:+ s))) in Heq.
    rewrite str_length_app in Heq. lia.
  - apply (f_equal String.length) in Heq.
    change (S (String.length (a +:+ s)) = String.length s) in Heq.
    rewrite str_length_app in Heq. lia.
  - change (String c (a +:+ s) = String d (b +:+ s)) in Heq.
    injection Heq as -> Heq. rewrite (IH b Heq). reflexivity.
Qed.

Lemma str_app_inv_head (p a b : string) : p +:+ a = p +:+ b -> a = b.
Proof.
  induction p as [|c p IH]; intros Heq; [exact Heq|].
  change (String c (p +:+ a) = String c (p +:+ b)) in Heq.
  injection Heq as Heq. exact (IH Heq).
Qed.

Lemma DuplicateField_inj (f g : string) : DuplicateField f = DuplicateField g -> f = g.
Proof.
  unfold DuplicateField. intros [= Heq].
  apply str_app_inv_head, str_app_inv_tail in Heq. exact Heq.
Qed.

Lemma filter_eq_absent (f : string) (xs : list string) :
  f ∉ xs -> filter (fun x => x = f) xs = [].
Proof.
  induction xs as [|x rest IH]; intros Hfresh; [reflexivity|].
  apply not_elem_of_cons in Hfresh as [Hne Hfresh].
  rewrite filter_cons_False by congruence. apply IH. exact Hfresh.
Qed.

Lemma filter_eq_keys (f : string) (o : JsObject) :
  filter (fun x => x = f) (Object_keys o)
  = Object_keys (filter (fun kv : string * JsValue => fst kv = f) o).
Proof.
  induction o as [|[k v] rest IH]; [reflexivity|].
  unfold Object_keys in *. simpl map.
  destruct (decide (k = f)) as [Hk|Hk].
  - rewrite !filter_cons_True by exact Hk. simpl. rewrite IH. reflexivity.
  - rewrite !filter_cons_False by exact Hk. exact IH.
Qed.

(** A field that is in one bucket only, once, occurs once in the list
    the duplicate check goes through. *)
Lemma onlyIn_once (field : string) (value : JsValue) (action : MapAction)
    (item : Req.t) :
  onlyIn field value action item ->
  filter (fun x => x = field) (fieldsListOf (extractFields item)) = [field].
Proof.
  intros ((o & Ho & Honce) & Hremove & Hothers).
  rewrite fieldsListOf_app, !filter_app. unfold extractFields. simpl.
  rewrite (filter_eq_absent field (default [] (Req.remove item)) Hremove).
  assert (forall other, other <> action ->
            filter (fun x => x = field) (keysOrEmpty (mapping item other)) = [])
    as Hempty.
  { intros other Hother. apply filter_eq_absent, Hothers, Hother. }
  destruct action; simpl in Ho; rewrite Ho; simpl;
    rewrite filter_eq_keys, Honce.
  - pose proof (Hempty MADD ltac:(discriminate)) as Ha.
    pose proof (Hempty MAPPEND ltac:(discriminate)) as Hp.
    simpl in Ha, Hp. rewrite Ha, Hp. reflexivity.
  - pose proof (Hempty MSET ltac:(discriminate)) as Hs.
    pose proof (Hempty MAPPEND ltac:(discriminate)) as Hp.
    simpl in Hs, Hp. rewrite Hs, Hp. reflexivity.
  - pose proof (Hempty MSET ltac:(discriminate)) as Hs.
    pose proof (Hempty MADD ltac:(discriminate)) as Ha.
    simpl in Hs, Ha. rewrite Hs, Ha. reflexivity.
Qed.

Lemma once_not_repeated (field : string) (xs before after : list string) :
  filter (fun x => x = field) xs = [field] ->
  xs = before ++ field :: after ->
  field ∉ before.
Proof.
  intros Honce -> Hin. rewrite filter_app, filter_cons_True in Honce by reflexivity.
  assert (field ∈ filter (fun x => x = field) before) as Hin'.
  { apply list_elem_of_filter. split; [reflexivity | exact Hin]. }
  destruct (filter (fun x => x = field) before) as [|y ys]; [inversion Hin'|].
  apply (f_equal length) in Honce. simpl in Honce.
  rewrite length_app in Honce. simpl in Honce. lia.
Qed.

Lemma prepare_onlyIn (now : string) (config : Config) (item : Req.t) :
  (autoTimestamp config = true ->
   onlyIn "lastUpdated" (JStr now) MSET (prepare now config item))
  /\ (autoVersion config = true ->
      onlyIn "version" (JNum 1) MADD (prepare now config item)).
Proof.
  pose proof (autoFields_onlyIn now [item] config) as Hall.
  rewrite autoFields_prepare in Hall. inversion Hall; subst. assumption.
Qed.

(** X15.  An automatic field is never what the duplicate check
    complains about: when validation of a request, after the automatic
    fields were added, fails with the "duplicate fields" error, the field
    it names is not [lastUpdated] under [autoTimestamp] and not
    [version] under [autoVersion], whatever the caller had put under
    these names. *)
Theorem automatic_field_never_duplicate `{Runtime} (now : string)
    (config policy' : Config) (item : Req.t) (g : string) :
  validateUpdateFields (extractFields (prepare now config item))
    (prepare now config item) policy'
  = Throw (DuplicateField g) ->
  (autoTimestamp config = true -> g <> "lastUpdated")
  /\ (autoVersion config = true -> g <> "version").
Proof.
  intros Hthrow.
  assert (exists before after,
            fieldsListOf (extractFields (prepare now config item))
            = before ++ g :: after /\ g ∈ before) as (before & after & Hsplit & Hin).
  { unfold validateUpdateFields in Hthrow.
    destruct (forOf _ actions) as [[]|e1] eqn:Hloop; simpl in Hthrow.
    - destruct (dupeLoop ∅ _) as [[]|e2] eqn:Hdup; simpl in Hthrow.
      + destruct (checkAddTypes _ _) as [[]|e3] eqn:Hadd; simpl in Hthrow.
        * apply checkAppendTypes_Throw in Hthrow as [[f Hk]|[m Hk]]; discriminate Hk.
        * injection Hthrow as ->.
          apply checkAddTypes_Throw in Hadd as [[f Hk]|[m Hk]]; discriminate Hk.
      + injection Hthrow as ->.
        apply dupeLoop_Throw in Hdup as (g' & before & after & Hg & Hsplit & [Hin|Hin]).
        * apply not_elem_of_empty in Hin. contradiction.
        * apply DuplicateField_inj in Hg as ->. eauto.
    - injection Hthrow as ->.
      apply permissionLoop_Throw in Hloop as (a & Hk & _). discriminate Hk. }
  destruct (prepare_onlyIn now config item) as [Hts Hver].
  split; intros Hflag ->.
  - apply (once_not_repeated "lastUpdated" _ before after
             (onlyIn_once _ _ _ _ (Hts Hflag)) Hsplit Hin).
  - apply (once_not_repeated "version" _ before after
             (onlyIn_once _ _ _ _ (Hver Hflag)) Hsplit Hin).
Qed.

Lemma automatic_field_never_duplicate_witness :
  @validateUpdateFields sampleRuntime
    (extractFields
       (prepare "now" (policyAuto {[ "set" := ruleAllowAll; "add" := ruleAllowAll ]})
                reqSetAddA))
    (prepare "now" (policyAuto {[ "set" := ruleAllowAll; "add" := ruleAllowAll ]})
             reqSetAddA)
    (policyAuto {[ "set" := ruleAllowAll; "add" := ruleAllowAll ]})
  = Throw (DuplicateField "a")
  /\ "a" <> "lastUpdated" /\ "a" <> "version".
Proof.
  split; [vm_compute; reflexivity|].
  pose proof (@automatic_field_never_duplicate sampleRuntime "now"
                (policyAuto {[ "set" := ruleAllowAll; "add" := ruleAllowAll ]})
                (policyAuto {[ "set" := ruleAllowAll; "add" := ruleAllowAll ]})
                reqSetAddA "a" eq_refl) as [Hts Hver].
  split; [apply Hts | apply Hver]; reflexivity.
Defined.

(* ===================================================================== *)
(** ** Every request is accounted for *)
(* ===================================================================== *)

Lemma omap_ok_thrown_length {A B : Type} (f : A -> Result B) (xs : list A) :
  (length (omap (fun x => okOf (f x)) xs)
   + length (omap (fun x => thrownOf (f x)) xs))%nat
  = length xs.
Proof.
  induction xs as [|x rest IH]; [reflexivity|].
  cbn. destruct (f x); cbn; cbn in IH; lia.
Qed.

(** X16.  Without [failOnError], and with [actionRules] present, every
    request of the batch is accounted for exactly once: the number of
    update objects returned and the number of errors logged add up to
    the number of requests. *)
Theorem every_request_compiled_or_logged `{Runtime} (now tableName : string)
    (updateList : list Req.t) (config : Config) :
  is_Some (actionRules config) ->
  failOnError config = false ->
  exists result,
    returned (quickApiUpdateHandler now tableName updateList config) = Ok result
    /\ (length result
        + length (logged (quickApiUpdateHandler now tableName updateList config)))%nat
       = length updateList.
Proof.
  intros Hrules Hmode.
  rewrite (quickApiUpdateHandler_unfold now tableName updateList config Hrules).
  simpl. rewrite compileLoop_collect
    by (rewrite (proj1 (autoFields_flags now updateList config)); exact Hmode).
  simpl. eexists. split; [reflexivity|].
  rewrite <- (autoFields_length now updateList config).
  apply (omap_ok_thrown_length
           (fun item => compileItem tableName item
                          (snd (autoFields now updateList config)))).
Qed.

Lemma every_request_compiled_or_logged_witness :
  exists result,
    returned (@quickApiUpdateHandler sampleRuntime "now" "t"
                [reqSetStatus; reqNoKey; reqSetAddA]
                (policy {[ "set" := ruleAllowAll; "add" := ruleAllowAll ]}))
    = Ok result
    /\ (length result
        + length (logged (@quickApiUpdateHandler sampleRuntime "now" "t"
                            [reqSetStatus; reqNoKey; reqSetAddA]
                            (policy {[ "set" := ruleAllowAll; "add" := ruleAllowAll ]}))))%nat
       = 3%nat.
Proof.
  apply (@every_request_compiled_or_logged sampleRuntime "now" "t"
           [reqSetStatus; reqNoKey; reqSetAddA]
           (policy {[ "set" := ruleAllowAll; "add" := ruleAllowAll ]})).
  - eexists. reflexivity.
  - reflexivity.
Defined.

(* ===================================================================== *)
(** ** The feature-flag update *)
(* ===================================================================== *)

Lemma checkFlags_None (entries : list (string * JsValue)) :
  FeatureFlags.checkFlags entries = None
  <-> Forall (fun kv => FeatureFlags.isBoolean (snd kv) = true) entries.
Proof.
  induction entries as [|[key value] rest IH]; simpl.
  - split; [constructor | reflexivity].
  - destruct (FeatureFlags.isBoolean value) eqn:Hb; simpl.
    + rewrite IH. split.
      * intros Hrest. constructor; [exact Hb | exact Hrest].
      * intros Hall. inversion Hall; assumption.
    + split; [discriminate|]. intros Hall. inversion Hall; subst. simpl in *. congruence.
Qed.

Lemma checkFlags_first (pre post : list (string * JsValue)) (key : string)
    (value : JsValue) :
  Forall (fun kv => FeatureFlags.isBoolean (snd kv) = true) pre ->
  FeatureFlags.isBoolean value = false ->
  FeatureFlags.checkFlags (pre ++ (key, value) :: post)
  = Some (FeatureFlags.exception400 (FeatureFlags.flagMessage key)).
Proof.
  intros Hpre Hvalue. induction Hpre as [|[k v] pre' Hk _ IH]; simpl.
  - rewrite Hvalue. reflexivity.
  - simpl in Hk. rewrite Hk. simpl. exact IH.
Qed.

(** X17.  The handler calls [putItem] or [writeAuditLog] only for a
    request that is not a preflight, whose caller passed the super-admin
    check, whose body parsed to a value with a truthy [flags], all of
    whose entries are booleans, and after [getOne] returned. *)
Theorem flags_written_only_when_valid `{Runtime} (env : FeatureFlags.Env) :
  snd (FeatureFlags.handler env) <> [] ->
  FeatureFlags.isOptions (FeatureFlags.httpMethod env) = false
  /\ exists claims body current,
       FeatureFlags.validateSuperAdminAuth env = inr claims
       /\ FeatureFlags.parsedBody env = inr body
       /\ truthy body = true
       /\ truthy (FeatureFlags.propOf body "flags") = true
       /\ Forall (fun kv => FeatureFlags.isBoolean (snd kv) = true)
                 (FeatureFlags.Object_entries (FeatureFlags.propOf body "flags"))
       /\ FeatureFlags.getOne env = inr current.
Proof.
  unfold FeatureFlags.handler.
  destruct (FeatureFlags.isOptions _); simpl; [contradiction|].
  destruct (FeatureFlags.validateSuperAdminAuth env) as [e|claims] eqn:Hauth; simpl;
    [contradiction|].
  destruct (FeatureFlags.parsedBody env) as [e|body] eqn:Hbody; simpl;
    [contradiction|].
  destruct (truthy body) eqn:Htruthy; simpl; [|contradiction].
  destruct (truthy (FeatureFlags.propOf body "flags")) eqn:Hflag; simpl;
    [|contradiction].
  destruct (FeatureFlags.checkFlags _) as [e|] eqn:Hflags; simpl; [contradiction|].
  destruct (FeatureFlags.getOne env) as [e|current] eqn:Hget; simpl; [contradiction|].
  intros _. split; [reflexivity|].
  exists claims, body, current. repeat split; try assumption; try reflexivity.
  apply checkFlags_None. exact Hflags.
Qed.

Lemma flags_written_only_when_valid_witness :
  FeatureFlags.isOptions
    (FeatureFlags.httpMethod (flagsEnv bodyGoodFlags None)) = false
  /\ exists claims body current,
       FeatureFlags.validateSuperAdminAuth (flagsEnv bodyGoodFlags None) = inr claims
       /\ FeatureFlags.parsedBody (flagsEnv bodyGoodFlags None) = inr body
       /\ truthy body = true
       /\ truthy (FeatureFlags.propOf body "flags") = true
       /\ Forall (fun kv => FeatureFlags.isBoolean (snd kv) = true)
                 (FeatureFlags.Object_entries (FeatureFlags.propOf body "flags"))
       /\ FeatureFlags.getOne (flagsEnv bodyGoodFlags None) = inr current.
Proof.
  apply (@flags_written_only_when_valid sampleRuntime (flagsEnv bodyGoodFlags None)).
  vm_compute. discriminate.
Defined.

(** X18.  When the caller is authorised and the body has a truthy
    [flags] with an entry that is not a boolean, the response has the
    status 400 and the message [Flag "key" must be a boolean value] for
    the first such entry, and neither [putItem] nor [writeAuditLog] is
    called. *)
Theorem flags_non_boolean_rejected `{Runtime} (env : FeatureFlags.Env)
    (claims : FeatureFlags.Claims) (body : JsValue)
    (pre post : list (string * JsValue)) (key : string) (value : JsValue) :
  FeatureFlags.isOptions (FeatureFlags.httpMethod env) = false ->
  FeatureFlags.validateSuperAdminAuth env = inr claims ->
  FeatureFlags.parsedBody env = inr body ->
  truthy body = true ->
  truthy (FeatureFlags.propOf body "flags") = true ->
  FeatureFlags.Object_entries (FeatureFlags.propOf body "flags")
  = pre ++ (key, value) :: post ->
  Forall (fun kv => FeatureFlags.isBoolean (snd kv) = true) pre ->
  FeatureFlags.isBoolean value = false ->
  FeatureFlags.handler env
  = ({| FeatureFlags.statusCode := 400;
        FeatureFlags.data := JNull;
        FeatureFlags.responseMessage := JStr (FeatureFlags.flagMessage key);
        FeatureFlags.responseError :=
          FeatureFlags.Whole (FeatureFlags.exception400 (FeatureFlags.flagMessage key)) |},
     []).
Proof.
  intros Hmethod Hauth Hbody Htruthy Hflags Hentries Hpre Hvalue.
  unfold FeatureFlags.handler.
  rewrite Hmethod, Hauth, Hbody, Htruthy, Hflags, Hentries. simpl.
  rewrite (checkFlags_first pre post key value Hpre Hvalue). reflexivity.
Qed.

Lemma flags_non_boolean_rejected_witness :
  @FeatureFlags.handler sampleRuntime (flagsEnv bodyBadFlag None)
  = ({| FeatureFlags.statusCode := 400;
        FeatureFlags.data := JNull;
        FeatureFlags.responseMessage := JStr (FeatureFlags.flagMessage "beta");
        FeatureFlags.responseError :=
          FeatureFlags.Whole (FeatureFlags.exception400 (FeatureFlags.flagMessage "beta")) |},
     []).
Proof.
  apply (@flags_non_boolean_rejected sampleRuntime (flagsEnv bodyBadFlag None)
           adminClaims bodyBadFlag [("enablePayments", JBool false)] []
           "beta" (JStr "yes"));
    try reflexivity.
  repeat constructor.
Defined.



(** X20.  The two writes are not atomic: when [putItem] succeeds and
    [writeAuditLog] throws, the response is the error response of what
    was thrown although the record has been written. *)
Theorem flags_audit_failure_after_write `{Runtime} (env : FeatureFlags.Env)
    (claims : FeatureFlags.Claims) (body : JsValue)
    (current : option FeatureFlags.Stored) (e : FeatureFlags.Raised) :
  FeatureFlags.isOptions (FeatureFlags.httpMethod env) = false ->
  FeatureFlags.validateSuperAdminAuth env = inr claims ->
  FeatureFlags.parsedBody env = inr body ->
  truthy body = true ->
  truthy (FeatureFlags.propOf body "flags") = true ->
  Forall (fun kv => FeatureFlags.isBoolean (snd kv) = true)
         (FeatureFlags.Object_entries (FeatureFlags.propOf body "flags")) ->
  FeatureFlags.getOne env = inr current ->
  FeatureFlags.putItem env
    (FeatureFlags.updatedConfig (FeatureFlags.propOf body "flags")
       (FeatureFlags.getNowISO env) claims current) = None ->
  FeatureFlags.writeAuditLog env (FeatureFlags.sub claims)
    (FeatureFlags.auditDetails (FeatureFlags.propOf body "flags")
       (FeatureFlags.getNowISO env) claims current) = Some e ->
  FeatureFlags.handler env
  = (FeatureFlags.failure e,
     [FeatureFlags.PutItem
        (FeatureFlags.updatedConfig (FeatureFlags.propOf body "flags")
           (FeatureFlags.getNowISO env) claims current);
      FeatureFlags.WriteAuditLog (FeatureFlags.sub claims) "featureFlags"
        "FEATURE_FLAGS_UPDATE"
        (FeatureFlags.auditDetails (FeatureFlags.propOf body "flags")
           (FeatureFlags.getNowISO env) claims current)]).
Proof.
  intros Hmethod Hauth Hbody Htruthy Hflags Hall Hget Hput Haudit.
  unfold FeatureFlags.handler.
  rewrite Hmethod, Hauth, Hbody, Htruthy, Hflags. simpl.
  rewrite (proj2 (checkFlags_None _) Hall), Hget. simpl.
  rewrite Hput, Haudit. reflexivity.
Qed.

Lemma flags_audit_failure_after_write_witness :
  FeatureFlags.statusCode
    (fst (@FeatureFlags.handler sampleRuntime (flagsEnv bodyGoodFlags (Some auditDown))))
  = 500
  /\ length (snd (@FeatureFlags.handler sampleRuntime
                    (flagsEnv bodyGoodFlags (Some auditDown)))) = 2%nat.
Proof.
  rewrite (@flags_audit_failure_after_write sampleRuntime
             (flagsEnv bodyGoodFlags (Some auditDown))
             adminClaims bodyGoodFlags (Some storedV4) auditDown
             eq_refl eq_refl eq_refl eq_refl eq_refl
             ltac:(repeat constructor) eq_refl eq_refl eq_refl).
  split; reflexivity.
Defined.
